(** * Bulebule micromouse: infrared wall detection and cell-by-cell motion

    A shallow embedding of [src/target/detection.c] and of the motion
    primitives of [move.c], with the properties of the sensing cycle, the
    distance estimator, the wall detector, the drift calibrator and the
    kinematic primitives.

    C [float] and [double] values are IEEE 754 binary32 and binary64 numbers,
    represented by [spec_float] with the mantissa normalized for their
    format; every arithmetic operation is performed in the format the C usual
    arithmetic conversions select and rounds to nearest even, and every
    promotion of a [float] to [double] is written out.  Integers are [Z] with
    the wrap-around of their width written out. *)

From Stdlib Require Import ZArith List Bool Lia ZifyNat.
From Stdlib Require Import Floats.SpecFloat.
Import ListNotations.

(** [lia] decides goals with division and remainder by literals. *)
Ltac Zify.zify_post_hook ::= Z.to_euclidean_division_equations.

Local Open Scope Z_scope.

(** ** C floating-point arithmetic *)

Module Ieee.

Definition prec32 : Z := 24.
Definition emax32 : Z := 128.
Definition prec64 : Z := 53.
Definition emax64 : Z := 1024.

Definition pzero : spec_float := S754_zero false.
Definition nan : spec_float := S754_nan.
Definition pinf : spec_float := S754_infinity false.
Definition ninf : spec_float := S754_infinity true.

(** [float op float], evaluated in binary32. *)
Definition f_add := SFadd prec32 emax32.
Definition f_sub := SFsub prec32 emax32.
Definition f_mul := SFmul prec32 emax32.
Definition f_div := SFdiv prec32 emax32.

(** Any operation with a [double] operand, evaluated in binary64. *)
Definition d_add := SFadd prec64 emax64.
Definition d_sub := SFsub prec64 emax64.
Definition d_mul := SFmul prec64 emax64.
Definition d_div := SFdiv prec64 emax64.

Definition f_opp := SFopp.

(** Conversion of a [double] to [float] (assignment to a [float] object,
    [float] parameter or [float] return value). *)
Definition to_float (x : spec_float) : spec_float :=
  match x with
  | S754_finite s m e => binary_round prec32 emax32 s m e
  | _ => x
  end.

(** Promotion of a [float] to [double]: the value is kept, the mantissa is
    renormalized to 53 bits. *)
Definition to_double (x : spec_float) : spec_float :=
  match x with
  | S754_finite s m e => binary_round prec64 emax64 s m e
  | _ => x
  end.

(** Integer to floating-point conversions. *)
Definition int_to_float (z : Z) : spec_float :=
  binary_normalize prec32 emax32 z 0 false.
Definition int_to_double (z : Z) : spec_float :=
  binary_normalize prec64 emax64 z 0 false.

(** The [double] denoted by the decimal literal [n]e-[k]: the correctly
    rounded quotient of two exactly representable integers. *)
Definition literal (n : Z) (k : Z) : spec_float :=
  d_div (int_to_double n) (int_to_double (10 ^ k)).

(** Relational operators on two operands of the same format; every
    comparison with a NaN is false. *)
Definition lt (x y : spec_float) : bool := SFltb x y.
Definition gt (x y : spec_float) : bool := lt y x.
Definition eq (x y : spec_float) : bool := SFeqb x y.

Definition is_nan (x : spec_float) : bool :=
  match x with S754_nan => true | _ => false end.

Definition is_finite (x : spec_float) : bool :=
  match x with
  | S754_zero _ | S754_finite _ _ _ => true
  | _ => false
  end.

(** Truncation toward zero of a finite value. *)
Definition trunc (x : spec_float) : option Z :=
  match x with
  | S754_zero _ => Some 0
  | S754_finite s m e =>
      let q := match e with
               | Zneg p => Z.shiftr (Zpos m) (Zpos p)
               | _ => Z.shiftl (Zpos m) e
               end in
      Some (if s then - q else q)
  | _ => None
  end.

(** Floating-point to integer conversions.  The C standard leaves the
    conversion undefined when the truncated value does not fit the
    destination type (and for NaN and the infinities): [None]. *)
Definition to_int32 (x : spec_float) : option Z :=
  match trunc x with
  | Some q => if (- 2 ^ 31 <=? q) && (q <? 2 ^ 31) then Some q else None
  | None => None
  end.

Definition to_uint32 (x : spec_float) : option Z :=
  match trunc x with
  | Some q => if (0 <=? q) && (q <? 2 ^ 32) then Some q else None
  | None => None
  end.

(** Integer wrap-around. *)
Definition wrap_uint16 (z : Z) : Z := z mod 2 ^ 16.
Definition wrap_uint32 (z : Z) : Z := z mod 2 ^ 32.
Definition wrap_int32 (z : Z) : Z := (z + 2 ^ 31) mod 2 ^ 32 - 2 ^ 31.

End Ieee.

(** ** The C library logarithm

    [log] comes from the C library.  Only its values at the special operands
    are fixed (C99, F.9.3.7): NaN for a NaN or negative operand, minus
    infinity at either zero, plus infinity at plus infinity.  On positive
    finite operands an implementation returns some approximation of the
    natural logarithm, about which nothing is assumed. *)

Class Libm := {
  log : spec_float -> spec_float;
  log_nan : log S754_nan = S754_nan;
  log_zero : forall s, log (S754_zero s) = S754_infinity true;
  log_negative :
    forall x, Ieee.lt x Ieee.pzero = true -> log x = S754_nan;
  log_pinf : log (S754_infinity false) = S754_infinity false
}.

(** ** Build-time configuration

    The constants of [setup.h] and the fitted calibration coefficients are
    not part of the sources at hand; the code is modelled for any value of
    them.  All of them are [double] constants. *)

Record setup := {
  CELL_DIMENSION : spec_float;
  MIDDLE_MAZE_DISTANCE : spec_float;
  PI : spec_float;
  SENSOR_SIDE_LEFT_A : spec_float;
  SENSOR_SIDE_RIGHT_A : spec_float;
  SENSOR_FRONT_LEFT_A : spec_float;
  SENSOR_FRONT_RIGHT_A : spec_float;
  SENSOR_SIDE_LEFT_B : spec_float;
  SENSOR_SIDE_RIGHT_B : spec_float;
  SENSOR_FRONT_LEFT_B : spec_float;
  SENSOR_FRONT_RIGHT_B : spec_float
}.

(** Modelled from the spec: [setup.h] is not part of the sources; the factor
    that converts meters to the micrometers of the odometry, an integer
    constant. *)
Definition MICROMETERS_PER_METER : Z := 1000000.

(** C arrays are total maps from indices; a store changes one index. *)
Definition array (A : Type) := nat -> A.

Definition store {A : Type} (a : array A) (i : nat) (v : A) : array A :=
  fun j => if Nat.eqb j i then v else a j.

(** [for (i = from; i < from + n; i++) body], threading the state. *)
Fixpoint for_loop {S : Type} (n : nat) (from : nat) (body : nat -> S -> S)
    (s : S) : S :=
  match n with
  | O => s
  | Datatypes.S n' => for_loop n' (Datatypes.S from) body (body from s)
  end.

(** ** detection.c: sensing cycle, distance estimator, wall detector *)

Module Detection.
Import Ieee.

Local Open Scope nat_scope.

(** Modelled from the spec: [detection.h] is not part of the sources; the
    four sensors have the fixed identities side-left, side-right,
    front-left, front-right, indexed 0..3 in the order of the calibration
    tables. *)
Definition NUM_SENSOR : nat := 4.
Definition SENSOR_SIDE_LEFT_ID : nat := 0.
Definition SENSOR_SIDE_RIGHT_ID : nat := 1.
Definition SENSOR_FRONT_LEFT_ID : nat := 2.
Definition SENSOR_FRONT_RIGHT_ID : nat := 3.

Definition SIDE_CALIBRATION_READINGS : nat := 20.
Definition SENSORS_SM_TICKS : nat := 4.

(** Pin masks of the GPIO output data registers. *)
Definition GPIO8 : Z := Z.shiftl 1 8.
Definition GPIO9 : Z := Z.shiftl 1 9.

(** The static variables of the file, the two emitter ports and the two
    static locals of [sm_emitter_adc]. *)
Record state := {
  GPIOA : Z;
  GPIOB : Z;
  emitter_status : nat;
  sensor_index : nat;
  sensors_off : array Z;
  sensors_on : array Z;
  distance : array spec_float;
  calibration_factor : array spec_float
}.

Definition set_GPIOA (v : Z) (s : state) : state :=
  {| GPIOA := v; GPIOB := GPIOB s;
     emitter_status := emitter_status s; sensor_index := sensor_index s;
     sensors_off := sensors_off s; sensors_on := sensors_on s;
     distance := distance s; calibration_factor := calibration_factor s |}.

Definition set_GPIOB (v : Z) (s : state) : state :=
  {| GPIOA := GPIOA s; GPIOB := v;
     emitter_status := emitter_status s; sensor_index := sensor_index s;
     sensors_off := sensors_off s; sensors_on := sensors_on s;
     distance := distance s; calibration_factor := calibration_factor s |}.

Definition set_emitter_status (v : nat) (s : state) : state :=
  {| GPIOA := GPIOA s; GPIOB := GPIOB s;
     emitter_status := v; sensor_index := sensor_index s;
     sensors_off := sensors_off s; sensors_on := sensors_on s;
     distance := distance s; calibration_factor := calibration_factor s |}.

Definition set_sensor_index (v : nat) (s : state) : state :=
  {| GPIOA := GPIOA s; GPIOB := GPIOB s;
     emitter_status := emitter_status s; sensor_index := v;
     sensors_off := sensors_off s; sensors_on := sensors_on s;
     distance := distance s; calibration_factor := calibration_factor s |}.

Definition set_sensors_off (v : array Z) (s : state) : state :=
  {| GPIOA := GPIOA s; GPIOB := GPIOB s;
     emitter_status := emitter_status s; sensor_index := sensor_index s;
     sensors_off := v; sensors_on := sensors_on s;
     distance := distance s; calibration_factor := calibration_factor s |}.

Definition set_sensors_on (v : array Z) (s : state) : state :=
  {| GPIOA := GPIOA s; GPIOB := GPIOB s;
     emitter_status := emitter_status s; sensor_index := sensor_index s;
     sensors_off := sensors_off s; sensors_on := v;
     distance := distance s; calibration_factor := calibration_factor s |}.

Definition set_distance (v : array spec_float) (s : state) : state :=
  {| GPIOA := GPIOA s; GPIOB := GPIOB s;
     emitter_status := emitter_status s; sensor_index := sensor_index s;
     sensors_off := sensors_off s; sensors_on := sensors_on s;
     distance := v; calibration_factor := calibration_factor s |}.

Definition set_calibration_factor (v : array spec_float) (s : state)
  : state :=
  {| GPIOA := GPIOA s; GPIOB := GPIOB s;
     emitter_status := emitter_status s; sensor_index := sensor_index s;
     sensors_off := sensors_off s; sensors_on := sensors_on s;
     distance := distance s; calibration_factor := v |}.

(** The state at start-up: the statics hold their initializers (zero where
    none is written) and every emitter pin is low. *)
Definition initial : state :=
  {| GPIOA := 0; GPIOB := 0;
     emitter_status := 1; sensor_index := SENSOR_SIDE_LEFT_ID;
     sensors_off := fun _ => 0%Z; sensors_on := fun _ => 0%Z;
     distance := fun _ => pzero; calibration_factor := fun _ => pzero |}.

(** [gpio_set] raises the selected bits of a port, [gpio_clear] lowers
    them; the other bits keep their value. *)
Definition gpio_set (port gpios : Z) : Z := Z.lor port gpios.
Definition gpio_clear (port gpios : Z) : Z := Z.ldiff port gpios.

Definition set_emitter_on (emitter : nat) (s : state) : state :=
  match emitter with
  | 0 => set_GPIOA (gpio_set (GPIOA s) GPIO9) s
  | 1 => set_GPIOB (gpio_set (GPIOB s) GPIO8) s
  | 2 => set_GPIOA (gpio_set (GPIOA s) GPIO8) s
  | 3 => set_GPIOB (gpio_set (GPIOB s) GPIO9) s
  | _ => s
  end.

Definition set_emitter_off (emitter : nat) (s : state) : state :=
  match emitter with
  | 0 => set_GPIOA (gpio_clear (GPIOA s) GPIO9) s
  | 1 => set_GPIOB (gpio_clear (GPIOB s) GPIO8) s
  | 2 => set_GPIOA (gpio_clear (GPIOA s) GPIO8) s
  | 3 => set_GPIOB (gpio_clear (GPIOB s) GPIO9) s
  | _ => s
  end.

(** Whether the emitter of a sensor is powered: the level of its pin, bit 9
    of a port for [GPIO9] and bit 8 for [GPIO8]. *)
Definition emitter_armed (s : state) (emitter : nat) : bool :=
  match emitter with
  | 0 => Z.testbit (GPIOA s) 9
  | 1 => Z.testbit (GPIOB s) 8
  | 2 => Z.testbit (GPIOA s) 8
  | 3 => Z.testbit (GPIOB s) 9
  | _ => false
  end.

(** One timer tick of the state machine.  [adc1] is the value
    [adc_read_injected (ADC1, sensor_index + 1)] returns at this tick; it
    is narrowed to [uint16_t] when stored.  Starting a conversion changes
    nothing of the state kept here. *)
Definition sm_emitter_adc (adc1 : Z) (s : state) : state :=
  match emitter_status s with
  | 1 =>
      let s1 :=
        set_sensors_off
          (store (sensors_off s) (sensor_index s) (wrap_uint16 adc1)) s in
      let s2 := set_emitter_on (sensor_index s1) s1 in
      set_emitter_status 2 s2
  | 2 => set_emitter_status 3 s
  | 3 =>
      let s1 :=
        set_sensors_on
          (store (sensors_on s) (sensor_index s) (wrap_uint16 adc1)) s in
      let s2 := set_emitter_off (sensor_index s1) s1 in
      set_emitter_status 4 s2
  | 4 =>
      let s1 := set_emitter_status 1 s in
      if Nat.eqb (sensor_index s1) (NUM_SENSOR - 1)
      then set_sensor_index 0 s1
      else set_sensor_index (Datatypes.S (sensor_index s1)) s1
  | _ => s
  end.

(** The timer interrupt: runs the state machine when the update flag is
    raised. *)
Definition tim1_up_isr (uif : bool) (adc1 : Z) (s : state) : state :=
  if uif then sm_emitter_adc adc1 s else s.

(** [n] consecutive timer ticks; [adc k] is the ADC1 reading available at
    tick [k]. *)
Fixpoint sensor_cycle (adc : nat -> Z) (n : nat) (s : state) : state :=
  match n with
  | O => s
  | Datatypes.S k => tim1_up_isr true (adc k) (sensor_cycle adc k s)
  end.

Section WithSetup.

Variable cfg : setup.
Context {libm : Libm}.

Definition SIDE_WALL_DETECTION : spec_float :=
  d_mul (CELL_DIMENSION cfg) (literal 90 2).
Definition FRONT_WALL_DETECTION : spec_float :=
  d_mul (CELL_DIMENSION cfg) (literal 15 1).

(** The [const float] calibration tables. *)
Definition sensors_calibration_a : array spec_float :=
  fun i =>
    match i with
    | 0 => to_float (SENSOR_SIDE_LEFT_A cfg)
    | 1 => to_float (SENSOR_SIDE_RIGHT_A cfg)
    | 2 => to_float (SENSOR_FRONT_LEFT_A cfg)
    | 3 => to_float (SENSOR_FRONT_RIGHT_A cfg)
    | _ => pzero
    end.

Definition sensors_calibration_b : array spec_float :=
  fun i =>
    match i with
    | 0 => to_float (SENSOR_SIDE_LEFT_B cfg)
    | 1 => to_float (SENSOR_SIDE_RIGHT_B cfg)
    | 2 => to_float (SENSOR_FRONT_LEFT_B cfg)
    | 3 => to_float (SENSOR_FRONT_RIGHT_B cfg)
    | _ => pzero
    end.

(** The two [uint16_t] readings are promoted to [int] before the
    subtraction, the difference is converted to [float], [log] and the
    division and subtraction around it are [double] operations on promoted
    operands, and the result is narrowed to the [float] array cell. *)
Definition update_distance_body (i : nat) (s : state) : state :=
  let raw := (sensors_on s i - sensors_off s i)%Z in
  let d :=
    to_float
      (d_sub
         (d_div (to_double (sensors_calibration_a i))
                (log (to_double (int_to_float raw))))
         (to_double (sensors_calibration_b i))) in
  let s1 := set_distance (store (distance s) i d) s in
  if Nat.eqb i SENSOR_SIDE_LEFT_ID || Nat.eqb i SENSOR_SIDE_RIGHT_ID
  then
    set_distance
      (store (distance s1) i
         (f_sub (distance s1 i) (calibration_factor s1 i))) s1
  else s1.

Definition update_distance_readings (s : state) : state :=
  for_loop NUM_SENSOR 0 update_distance_body s.

Definition get_front_left_distance (s : state) : spec_float :=
  distance s SENSOR_FRONT_LEFT_ID.
Definition get_front_right_distance (s : state) : spec_float :=
  distance s SENSOR_FRONT_RIGHT_ID.
Definition get_side_left_distance (s : state) : spec_float :=
  distance s SENSOR_SIDE_LEFT_ID.
Definition get_side_right_distance (s : state) : spec_float :=
  distance s SENSOR_SIDE_RIGHT_ID.

Definition get_side_sensors_error (s : state) : spec_float :=
  if gt (to_double (distance s SENSOR_SIDE_LEFT_ID))
        (MIDDLE_MAZE_DISTANCE cfg)
     && lt (to_double (distance s SENSOR_SIDE_RIGHT_ID))
           (MIDDLE_MAZE_DISTANCE cfg)
  then
    to_float (d_sub (to_double (distance s SENSOR_SIDE_RIGHT_ID))
                    (MIDDLE_MAZE_DISTANCE cfg))
  else if gt (to_double (distance s SENSOR_SIDE_RIGHT_ID))
             (MIDDLE_MAZE_DISTANCE cfg)
          && lt (to_double (distance s SENSOR_SIDE_LEFT_ID))
                (MIDDLE_MAZE_DISTANCE cfg)
  then
    to_float (d_sub (MIDDLE_MAZE_DISTANCE cfg)
                    (to_double (distance s SENSOR_SIDE_LEFT_ID)))
  else int_to_float 0.

Definition get_front_sensors_error (s : state) : spec_float :=
  f_sub (distance s SENSOR_FRONT_LEFT_ID)
        (distance s SENSOR_FRONT_RIGHT_ID).

Definition get_front_wall_distance (s : state) : spec_float :=
  to_float
    (d_div (to_double (f_add (distance s SENSOR_FRONT_LEFT_ID)
                             (distance s SENSOR_FRONT_RIGHT_ID)))
           (literal 2 0)).

Definition left_wall_detection (s : state) : bool :=
  if lt (to_double (distance s SENSOR_SIDE_LEFT_ID)) SIDE_WALL_DETECTION
  then true else false.

Definition right_wall_detection (s : state) : bool :=
  if lt (to_double (distance s SENSOR_SIDE_RIGHT_ID)) SIDE_WALL_DETECTION
  then true else false.

Definition front_wall_detection (s : state) : bool :=
  if lt (to_double (distance s SENSOR_FRONT_LEFT_ID)) FRONT_WALL_DETECTION
     && lt (to_double (distance s SENSOR_FRONT_RIGHT_ID))
           FRONT_WALL_DETECTION
  then true else false.

(** The calibration loop reads the volatile [distance] array once per
    iteration and sleeps in between, while the interrupt handlers keep
    refreshing it: [readings k] is the content of [distance] at
    iteration [k].  The accumulators are [float]; the mean is a [float]
    division by the integer count; subtracting the [double] constant and
    adding to the stored factor are [double] operations on promoted
    operands, narrowed when stored. *)
Definition calibration_body (readings : nat -> array spec_float)
    (i : nat) (acc : spec_float * spec_float)
  : spec_float * spec_float :=
  let '(left_temp, right_temp) := acc in
  (f_add left_temp (readings i SENSOR_SIDE_LEFT_ID),
   f_add right_temp (readings i SENSOR_SIDE_RIGHT_ID)).

Definition calibration_update (temp : spec_float) (factor : spec_float)
  : spec_float :=
  to_float
    (d_add (to_double factor)
       (d_sub
          (to_double
             (f_div temp (int_to_float (Z.of_nat SIDE_CALIBRATION_READINGS))))
          (MIDDLE_MAZE_DISTANCE cfg))).

Definition side_sensors_calibration (readings : nat -> array spec_float)
    (s : state) : state :=
  let '(left_temp, right_temp) :=
    for_loop SIDE_CALIBRATION_READINGS 0 (calibration_body readings)
      (int_to_float 0, int_to_float 0) in
  let s1 :=
    set_calibration_factor
      (store (calibration_factor s) SENSOR_SIDE_LEFT_ID
         (calibration_update left_temp
            (calibration_factor s SENSOR_SIDE_LEFT_ID))) s in
  set_calibration_factor
    (store (calibration_factor s1) SENSOR_SIDE_RIGHT_ID
       (calibration_update right_temp
          (calibration_factor s1 SENSOR_SIDE_RIGHT_ID))) s1.

End WithSetup.

End Detection.

(** ** move.c: cell bookkeeping and kinematic primitives *)

Module Move.
Import Ieee.

(** Modelled from the spec: [control.c] is not part of the sources; the
    low-level controller holds the target linear and angular speeds, which
    this file reads and writes, and the linear acceleration and
    deceleration magnitudes, which it reads.  All four are [float]. *)
Record control := {
  target_linear_speed : spec_float;
  target_angular_speed : spec_float;
  linear_acceleration : spec_float;
  linear_deceleration : spec_float
}.

Definition get_target_linear_speed (c : control) := target_linear_speed c.
Definition get_linear_acceleration (c : control) := linear_acceleration c.
Definition get_linear_deceleration (c : control) := linear_deceleration c.

Definition set_target_angular_speed (v : spec_float) (c : control)
  : control :=
  {| target_linear_speed := target_linear_speed c;
     target_angular_speed := v;
     linear_acceleration := linear_acceleration c;
     linear_deceleration := linear_deceleration c |}.

(** The static variables of the file and the left status LED. *)
Record state := {
  max_linear_speed : spec_float;
  cell_shift : spec_float;
  current_cell_start_micrometers : Z;
  led_left : bool
}.

Definition set_cell_shift (v : spec_float) (s : state) : state :=
  {| max_linear_speed := max_linear_speed s;
     cell_shift := v;
     current_cell_start_micrometers := current_cell_start_micrometers s;
     led_left := led_left s |}.

Definition set_current_cell_start_micrometers (v : Z) (s : state) : state :=
  {| max_linear_speed := max_linear_speed s;
     cell_shift := cell_shift s;
     current_cell_start_micrometers := v;
     led_left := led_left s |}.

Definition led_left_toggle (s : state) : state :=
  {| max_linear_speed := max_linear_speed s;
     cell_shift := cell_shift s;
     current_cell_start_micrometers := current_cell_start_micrometers s;
     led_left := negb (led_left s) |}.

(** Program points of a turn: inside the first busy-wait, inside the
    second, and after the return. *)
Inductive turn_pc := Turning | Settling | Returned.

Record turn_state := {
  pc : turn_pc;
  starting_time : Z;
  ctl : control
}.

(** Ticks elapsed since [start], as the [uint32_t] subtraction computes
    them. *)
Definition elapsed (start now : Z) : Z := wrap_uint32 (now - start).

Section WithSetup.

Variable cfg : setup.

(** [encoder] is the value [get_encoder_average_micrometers ()] returns,
    [det] the state of the detection module at the call.  The result is
    [None] when the conversion of the correction to [int32_t] is
    undefined; the [int32_t] addition wraps. *)
Definition entered_next_cell (encoder : Z) (det : Detection.state)
    (s : state) : option state :=
  let s1 := set_current_cell_start_micrometers encoder s in
  let corrected :=
    if Detection.front_wall_detection cfg det
    then
      match
        to_int32
          (d_mul
             (d_sub (to_double (Detection.get_front_wall_distance det))
                    (CELL_DIMENSION cfg))
             (int_to_double MICROMETERS_PER_METER))
      with
      | Some front_wall_correction =>
          Some
            (set_current_cell_start_micrometers
               (wrap_int32
                  (current_cell_start_micrometers s1
                   + front_wall_correction)) s1)
      | None => None
      end
    else Some s1 in
  match corrected with
  | Some s2 => Some (led_left_toggle (set_cell_shift (to_float pzero) s2))
  | None => None
  end.

(** All operations are [float]; the integers 2 and
    [MICROMETERS_PER_METER] are converted to [float].  The result is
    [None] when the conversion to [uint32_t] is undefined. *)
Definition required_micrometers_to_speed (c : control)
    (speed : spec_float) : option Z :=
  let target_speed := get_target_linear_speed c in
  let acceleration :=
    if gt target_speed speed
    then f_opp (get_linear_deceleration c)
    else get_linear_acceleration c in
  to_uint32
    (f_mul
       (f_div
          (f_sub (f_mul speed speed) (f_mul target_speed target_speed))
          (f_mul (int_to_float 2) acceleration))
       (int_to_float MICROMETERS_PER_METER)).

Definition required_time_to_speed (c : control) (speed : spec_float)
  : spec_float :=
  let target_speed := get_target_linear_speed c in
  let acceleration :=
    if gt target_speed speed
    then f_opp (get_linear_deceleration c)
    else get_linear_acceleration c in
  f_div (f_sub speed target_speed) acceleration.

(** A turn as a transition system over the successive values
    [get_clock_ticks ()] returns.  [turn_enter] is the prologue: the
    first clock read and the first speed command.  [turn_poll] is one
    evaluation of the condition of the busy-wait the program is in. *)
Definition turn_enter (angular_speed : spec_float) (now : Z)
    (c : control) : turn_state :=
  {| pc := Turning;
     starting_time := now;
     ctl := set_target_angular_speed angular_speed c |}.

Definition turn_poll (now : Z) (t : turn_state) : turn_state :=
  match pc t with
  | Turning =>
      if elapsed (starting_time t) now <=? 88 then t
      else
        {| pc := Settling;
           starting_time := starting_time t;
           ctl := set_target_angular_speed (int_to_float 0) (ctl t) |}
  | Settling =>
      if elapsed (starting_time t) now <=? 176 then t
      else
        {| pc := Returned;
           starting_time := starting_time t;
           ctl := ctl t |}
  | Returned => t
  end.

Definition turn_left_speed : spec_float :=
  to_float (d_mul (int_to_double (-8)) (PI cfg)).
Definition turn_right_speed : spec_float :=
  to_float (d_mul (int_to_double 8) (PI cfg)).

(** [now] is the first clock read, [polls] the later ones in order. *)
Definition turn_left (now : Z) (polls : list Z) (c : control)
  : turn_state :=
  fold_left (fun t p => turn_poll p t) polls
    (turn_enter turn_left_speed now c).

Definition turn_right (now : Z) (polls : list Z) (c : control)
  : turn_state :=
  fold_left (fun t p => turn_poll p t) polls
    (turn_enter turn_right_speed now c).

End WithSetup.

(** The values a busy-wait reads from the clock when it polls at least once
    per tick: each read returns the value of the read before it or, when the
    clock has ticked in between ([true]), the next value, wrapping at 32
    bits.  [now] is the value of the read that precedes them. *)
Fixpoint clock_reads (now : Z) (ticked : list bool) : list Z :=
  match ticked with
  | [] => []
  | b :: rest =>
      let now' := if b then wrap_uint32 (now + 1) else now in
      now' :: clock_reads now' rest
  end.

(** The number of ticks that elapse during such a sequence of reads. *)
Definition ticks (ticked : list bool) : Z :=
  Z.of_nat (count_occ bool_dec ticked true).

End Move.

(** ** detection.c: the snapshot of the raw readings and the wall report *)

Module Readout.
Import Ieee Detection.

(** [get_sensors_raw (off, on)] copies the raw readings into the two arrays
    of the caller, which are taken not to overlap; the result is the content
    of the two arrays after the call. *)
Definition get_sensors_raw_body (s : state) (i : nat)
    (dst : array Z * array Z) : array Z * array Z :=
  let off := store (fst dst) i (sensors_off s i) in
  let on := store (snd dst) i (sensors_on s i) in
  (off, on).

Definition get_sensors_raw (off on : array Z) (s : state)
  : array Z * array Z :=
  for_loop NUM_SENSOR 0 (get_sensors_raw_body s) (off, on).

(** Modelled from the spec: [struct walls_around] is declared in
    [detection.h], which is not part of the sources; it has the three
    boolean fields [read_walls] assigns. *)
Record walls_around := {
  left : bool;
  front : bool;
  right : bool
}.

Definition read_walls (cfg : setup) (s : state) : walls_around :=
  {| left := left_wall_detection cfg s;
     front := front_wall_detection cfg s;
     right := right_wall_detection cfg s |}.

End Readout.

(** ** move.c: the blocking primitives and the straight maneuvers *)

Module Motion.
Import Ieee.

(** Modelled from the spec: [control.c] is not part of the sources; the
    low-level controller has one switch for the front-sensor-based
    correction and one for the side-sensor-based correction. *)
Record walls_control := {
  front_control : bool;
  side_control : bool
}.

Definition front_sensors_control (value : bool) (w : walls_control)
  : walls_control :=
  {| front_control := value; side_control := side_control w |}.

Definition side_sensors_control (value : bool) (w : walls_control)
  : walls_control :=
  {| front_control := front_control w; side_control := value |}.

Definition set_target_linear_speed (v : spec_float) (c : Move.control)
  : Move.control :=
  {| Move.target_linear_speed := v;
     Move.target_angular_speed := Move.target_angular_speed c;
     Move.linear_acceleration := Move.linear_acceleration c;
     Move.linear_deceleration := Move.linear_deceleration c |}.

(** What a maneuver reads and writes: the controller, the two switches and
    the statics of [move.c]. *)
Record robot := {
  control : Move.control;
  walls : walls_control;
  cell : Move.state
}.

Definition set_control (c : Move.control) (r : robot) : robot :=
  {| control := c; walls := walls r; cell := cell r |}.

Definition set_walls (w : walls_control) (r : robot) : robot :=
  {| control := control r; walls := w; cell := cell r |}.

Definition set_cell (m : Move.state) (r : robot) : robot :=
  {| control := control r; walls := walls r; cell := m |}.

(** The values the successive calls of [get_encoder_average_micrometers]
    and of [get_clock_ticks] return, in order. *)
Record oracle := {
  encoder_reads : list Z;
  clock_reads : list Z
}.

(** How a call ends: it returns a value; it runs into a conversion the C
    standard leaves undefined; or it is still busy when the oracle has no
    further read to give. *)
Inductive outcome (A : Type) : Type :=
| Returns (a : A)
| Undefined
| Pending.

Arguments Returns {A} a.
Arguments Undefined {A}.
Arguments Pending {A}.

Definition bind {A B : Type} (x : outcome A) (k : A -> outcome B)
  : outcome B :=
  match x with
  | Returns a => k a
  | Undefined => Undefined
  | Pending => Pending
  end.

Notation "x <- c ;; k" := (bind c (fun x => k))
  (at level 61, c at next level, right associativity).

(** A conversion: undefined when it has no value. *)
Definition defined {A : Type} (x : option A) : outcome A :=
  match x with
  | Some a => Returns a
  | None => Undefined
  end.

(** A busy-wait: pending when it has consumed every read. *)
Definition finished {A : Type} (x : option A) : outcome A :=
  match x with
  | Some a => Returns a
  | None => Pending
  end.

(** [while (get_encoder_average_micrometers () < target_distance);]: the
    reads left once the loop has exited. *)
Fixpoint wait_encoder (target_distance : Z) (reads : list Z)
  : option (list Z) :=
  match reads with
  | [] => None
  | r :: rest =>
      if r <? target_distance then wait_encoder target_distance rest
      else Some rest
  end.

(** [while (get_clock_ticks () < target_ticks);]. *)
Fixpoint wait_clock (target_ticks : Z) (reads : list Z) : option (list Z) :=
  match reads with
  | [] => None
  | r :: rest =>
      if r <? target_ticks then wait_clock target_ticks rest
      else Some rest
  end.

(** Modelled from the spec: [enum step_direction] is declared in [move.h],
    which is not part of the sources; it has these five values. *)
Inductive step_direction : Type :=
| LEFT
| RIGHT
| FRONT
| BACK
| STOP.

(** The two busy-waits of a turn run on the clock of the oracle: every
    evaluation of a loop condition takes the next read, and no read is taken
    once the turn has returned. *)
Fixpoint wait_turn (t : Move.turn_state) (reads : list Z) {struct reads}
  : option (Move.turn_state * list Z) :=
  match Move.pc t with
  | Move.Returned => Some (t, reads)
  | _ =>
      match reads with
      | [] => None
      | now :: rest => wait_turn (Move.turn_poll now t) rest
      end
  end.

Definition turn (angular_speed : spec_float) (r : robot) (o : oracle)
  : outcome (robot * oracle) :=
  match clock_reads o with
  | [] => Pending
  | now :: later =>
      tl <- finished
              (wait_turn (Move.turn_enter angular_speed now (control r))
                 later);;
      Returns
        (set_control (Move.ctl (fst tl)) r,
         {| encoder_reads := encoder_reads o; clock_reads := snd tl |})
  end.

Section WithSetup.

Variable cfg : setup.

(** The tick frequency of [clock.h], which is not part of the sources: an
    integer constant, converted to [float] where it is used. *)
Variable SYSTICK_FREQUENCY_HZ : Z.

Definition required_ticks_to_speed (c : Move.control) (speed : spec_float)
  : option Z :=
  let required_seconds := Move.required_time_to_speed c speed in
  to_uint32 (f_mul required_seconds (int_to_float SYSTICK_FREQUENCY_HZ)).

(** [det] is the state of the detection module at the call. *)
Definition enable_walls_control (det : Detection.state) (w : walls_control)
  : walls_control :=
  let w1 :=
    front_sensors_control (Detection.front_wall_detection cfg det) w in
  side_sensors_control
    (Detection.right_wall_detection cfg det
     || Detection.left_wall_detection cfg det) w1.

Definition disable_walls_control (w : walls_control) : walls_control :=
  front_sensors_control false (side_sensors_control false w).

(** [distance] is a [float]; its product with the integer constant is a
    [float], converted to [int32_t]; the [int32_t] addition wraps. *)
Definition accelerate (start : Z) (distance : spec_float) (r : robot)
    (o : oracle) : outcome (robot * oracle) :=
  d <- defined
         (to_int32 (f_mul distance (int_to_float MICROMETERS_PER_METER)));;
  let target_distance := wrap_int32 (start + d) in
  let c1 := Move.set_target_angular_speed (to_float pzero) (control r) in
  let c2 := set_target_linear_speed (Move.max_linear_speed (cell r)) c1 in
  rest <- finished (wait_encoder target_distance (encoder_reads o));;
  Returns
    (set_control c2 r,
     {| encoder_reads := rest; clock_reads := clock_reads o |}).

(** The distance needed to slow down is computed from the target speed found
    on entry, the number of ticks from the target speed set two statements
    later.  The [uint32_t] result of [required_micrometers_to_speed] is
    converted to [int32_t] by wrapping, and the sum of the two [uint32_t]
    tick counts wraps. *)
Definition decelerate (start : Z) (distance speed : spec_float) (r : robot)
    (o : oracle) : outcome (robot * oracle) :=
  d <- defined
         (to_int32 (f_mul distance (int_to_float MICROMETERS_PER_METER)));;
  m <- defined (Move.required_micrometers_to_speed (control r) speed);;
  let target_distance := wrap_int32 (wrap_int32 (start + d) - wrap_int32 m) in
  let c1 := Move.set_target_angular_speed (to_float pzero) (control r) in
  let c2 := set_target_linear_speed (Move.max_linear_speed (cell r)) c1 in
  t <- defined (required_ticks_to_speed c2 speed);;
  rest <- finished (wait_encoder target_distance (encoder_reads o));;
  let c3 := set_target_linear_speed speed c2 in
  match clock_reads o with
  | [] => Pending
  | now :: later =>
      let target_ticks := wrap_uint32 (t + now) in
      later' <- finished (wait_clock target_ticks later);;
      Returns
        (set_control c3 r,
         {| encoder_reads := rest; clock_reads := later' |})
  end.

(** [entered_next_cell] as a step of a maneuver: it takes the next encoder
    read; [det] is the state of the detection module at that moment. *)
Definition entered_next_cell (det : Detection.state) (r : robot)
    (o : oracle) : outcome (robot * oracle) :=
  match encoder_reads o with
  | [] => Pending
  | encoder :: rest =>
      m <- defined (Move.entered_next_cell cfg encoder det (cell r));;
      Returns
        (set_cell m r,
         {| encoder_reads := rest; clock_reads := clock_reads o |})
  end.

(** [det] is the state of the detection module when the maneuver starts,
    [det'], where there is one, its state when the next cell is entered.
    [reset_control_errors] changes nothing of the state kept here. *)
Definition stop_end (det det' : Detection.state) (r : robot) (o : oracle)
  : outcome (robot * oracle) :=
  let r1 := set_walls (enable_walls_control det (walls r)) r in
  ro <- decelerate (Move.current_cell_start_micrometers (cell r1))
          (to_float (CELL_DIMENSION cfg)) (to_float pzero) r1 o;;
  let r2 := set_walls (disable_walls_control (walls (fst ro))) (fst ro) in
  entered_next_cell det' r2 (snd ro).

Definition stop_middle (det : Detection.state) (r : robot) (o : oracle)
  : outcome (robot * oracle) :=
  let distance := to_float (d_div (CELL_DIMENSION cfg) (literal 2 0)) in
  let r1 := set_walls (enable_walls_control det (walls r)) r in
  ro <- decelerate (Move.current_cell_start_micrometers (cell r1))
          distance (to_float pzero) r1 o;;
  let r2 := set_walls (disable_walls_control (walls (fst ro))) (fst ro) in
  Returns (set_cell (Move.set_cell_shift distance (cell r2)) r2, snd ro).

Definition move_front (det det' : Detection.state) (r : robot) (o : oracle)
  : outcome (robot * oracle) :=
  let r1 := set_walls (enable_walls_control det (walls r)) r in
  ro <- accelerate (Move.current_cell_start_micrometers (cell r1))
          (to_float
             (d_sub (CELL_DIMENSION cfg)
                    (to_double (Move.cell_shift (cell r1))))) r1 o;;
  entered_next_cell det' (fst ro) (snd ro).

Definition turn_left (r : robot) (o : oracle) : outcome (robot * oracle) :=
  turn (Move.turn_left_speed cfg) r o.

Definition turn_right (r : robot) (o : oracle) : outcome (robot * oracle) :=
  turn (Move.turn_right_speed cfg) r o.

(** [move_out] starts from the odometry it reads on entry, not from the
    recorded cell start. *)
Definition move_out (det det' : Detection.state) (r : robot) (o : oracle)
  : outcome (robot * oracle) :=
  let r1 := set_walls (enable_walls_control det (walls r)) r in
  match encoder_reads o with
  | [] => Pending
  | encoder :: rest =>
      ro <- accelerate encoder
              (to_float
                 (d_sub (CELL_DIMENSION cfg)
                        (to_double (Move.cell_shift (cell r1))))) r1
              {| encoder_reads := rest; clock_reads := clock_reads o |};;
      entered_next_cell det' (fst ro) (snd ro)
  end.

(** [det1], [det2] and [det3] are the states of the detection module at the
    successive calls of a maneuver that read it.  The constants 0.02 and
    0.666 are [double] literals converted to the [float] parameters. *)
Definition move_left (det1 det2 det3 : Detection.state) (r : robot)
    (o : oracle) : outcome (robot * oracle) :=
  let r1 := set_walls (enable_walls_control det1 (walls r)) r in
  ro <- decelerate (Move.current_cell_start_micrometers (cell r1))
          (to_float (literal 2 2)) (to_float (literal 666 3)) r1 o;;
  let r2 := set_walls (disable_walls_control (walls (fst ro))) (fst ro) in
  ro' <- turn_left r2 (snd ro);;
  let r3 :=
    set_walls (enable_walls_control det2 (walls (fst ro'))) (fst ro') in
  match encoder_reads (snd ro') with
  | [] => Pending
  | encoder :: rest =>
      ro'' <- accelerate encoder (to_float (literal 2 2)) r3
                {| encoder_reads := rest;
                   clock_reads := clock_reads (snd ro') |};;
      entered_next_cell det3 (fst ro'') (snd ro'')
  end.

Definition move_right (det1 det2 det3 : Detection.state) (r : robot)
    (o : oracle) : outcome (robot * oracle) :=
  let r1 := set_walls (enable_walls_control det1 (walls r)) r in
  ro <- decelerate (Move.current_cell_start_micrometers (cell r1))
          (to_float (literal 2 2)) (to_float (literal 666 3)) r1 o;;
  let r2 := set_walls (disable_walls_control (walls (fst ro))) (fst ro) in
  ro' <- turn_right r2 (snd ro);;
  let r3 :=
    set_walls (enable_walls_control det2 (walls (fst ro'))) (fst ro') in
  match encoder_reads (snd ro') with
  | [] => Pending
  | encoder :: rest =>
      ro'' <- accelerate encoder (to_float (literal 2 2)) r3
                {| encoder_reads := rest;
                   clock_reads := clock_reads (snd ro') |};;
      entered_next_cell det3 (fst ro'') (snd ro'')
  end.

Definition move_back (det1 det2 det3 : Detection.state) (r : robot)
    (o : oracle) : outcome (robot * oracle) :=
  ro <- stop_middle det1 r o;;
  ro' <- turn_right (fst ro) (snd ro);;
  ro'' <- turn_right (fst ro') (snd ro');;
  move_out det2 det3 (fst ro'') (snd ro'').

(** [move_front] reads the detection module twice, [stop_middle] once. *)
Definition move (direction : step_direction)
    (det1 det2 det3 : Detection.state) (r : robot) (o : oracle)
  : outcome (robot * oracle) :=
  match direction with
  | LEFT => move_left det1 det2 det3 r o
  | RIGHT => move_right det1 det2 det3 r o
  | FRONT => move_front det1 det2 r o
  | BACK => move_back det1 det2 det3 r o
  | STOP => stop_middle det1 r o
  end.

End WithSetup.

End Motion.

(** ** Reference instances *)

(** A coarse [log]: exact at the special operands, and on a positive finite
    operand the binary exponent scaled by ln 2. *)
Definition log_model (x : spec_float) : spec_float :=
  match x with
  | S754_nan => S754_nan
  | S754_zero _ => S754_infinity true
  | S754_infinity s => if s then S754_nan else x
  | S754_finite true _ _ => S754_nan
  | S754_finite false m e =>
      Ieee.d_mul
        (Ieee.int_to_double (Zpos (digits2_pos m) + e - 1))
        (Ieee.literal 6931471805599453 16)
  end.

(** The dimensions of the classic maze, 180 mm cells and 12 mm walls, with
    coefficients of the fitted range. *)
Definition classic_setup : setup :=
  {| CELL_DIMENSION := Ieee.literal 18 2;
     MIDDLE_MAZE_DISTANCE :=
       Ieee.d_div (Ieee.d_sub (Ieee.literal 18 2) (Ieee.literal 12 3))
                  (Ieee.literal 2 0);
     PI := Ieee.literal 3141592653589793 15;
     SENSOR_SIDE_LEFT_A := Ieee.literal 6 1;
     SENSOR_SIDE_RIGHT_A := Ieee.literal 6 1;
     SENSOR_FRONT_LEFT_A := Ieee.literal 6 1;
     SENSOR_FRONT_RIGHT_A := Ieee.literal 6 1;
     SENSOR_SIDE_LEFT_B := Ieee.literal 5 2;
     SENSOR_SIDE_RIGHT_B := Ieee.literal 5 2;
     SENSOR_FRONT_LEFT_B := Ieee.literal 5 2;
     SENSOR_FRONT_RIGHT_B := Ieee.literal 5 2 |}.

(** A detection state holding the given four distances. *)
Definition with_distance (side_left side_right front_left front_right
    : spec_float) : Detection.state :=
  Detection.set_distance
    (fun i =>
       match i with
       | O => side_left
       | 1%nat => side_right
       | 2%nat => front_left
       | _ => front_right
       end)
    Detection.initial.

(** The [float] nearest to the decimal [n]e-[k]. *)
Definition float_literal (n k : Z) : spec_float :=
  Ieee.to_float (Ieee.literal n k).

(** Both side walls within range, the left one read at 10 cm and the right
    one at 7 cm. *)
Definition between_two_walls : Detection.state :=
  with_distance (float_literal 10 2) (float_literal 7 2) S754_nan S754_nan.

(** A wall on the right only, read at 10 cm; the left reading is 20 cm. *)
Definition right_wall_only : Detection.state :=
  with_distance (float_literal 20 2) (float_literal 10 2) S754_nan S754_nan.

(** No usable reading on the left, a wall at 7 cm on the right. *)
Definition left_reading_lost : Detection.state :=
  with_distance S754_nan (float_literal 7 2) S754_nan S754_nan.

(** Every sensor reads the same raw value with its emitter on and off. *)
Definition equal_readings : Detection.state :=
  Detection.set_sensors_on (fun _ => 200)
    (Detection.set_sensors_off (fun _ => 200) Detection.initial).

(** Every sensor reads less with its emitter on than with it off. *)
Definition darker_when_lit : Detection.state :=
  Detection.set_sensors_on (fun _ => 100)
    (Detection.set_sensors_off (fun _ => 200) Detection.initial).

(** A front wall read at distance [d] by both front sensors. *)
Definition front_wall_at (d : spec_float) : Detection.state :=
  with_distance S754_nan S754_nan d d.

(** The [float] nearest to CELL_DIMENSION + 0.01 in the classic maze. *)
Definition cell_plus_one_cm : spec_float :=
  Ieee.to_float
    (Ieee.d_add (CELL_DIMENSION classic_setup) (Ieee.literal 1 2)).

(** The motion state of a robot standing in the middle of a cell. *)
Definition mid_cell : Move.state :=
  {| Move.max_linear_speed := float_literal 8 1;
     Move.cell_shift := float_literal 9 2;
     Move.current_cell_start_micrometers := 0;
     Move.led_left := false |}.

(** A maze whose dimensions are binary fractions of a meter: cells of 3/16 m
    and walls of 1/64 m, so that the middle of a corridor is 11/128 m away
    from its walls. *)
Definition dyadic_setup : setup :=
  {| CELL_DIMENSION := Ieee.literal 1875 4;
     MIDDLE_MAZE_DISTANCE := Ieee.literal 859375 7;
     PI := PI classic_setup;
     SENSOR_SIDE_LEFT_A := SENSOR_SIDE_LEFT_A classic_setup;
     SENSOR_SIDE_RIGHT_A := SENSOR_SIDE_RIGHT_A classic_setup;
     SENSOR_FRONT_LEFT_A := SENSOR_FRONT_LEFT_A classic_setup;
     SENSOR_FRONT_RIGHT_A := SENSOR_FRONT_RIGHT_A classic_setup;
     SENSOR_SIDE_LEFT_B := SENSOR_SIDE_LEFT_B classic_setup;
     SENSOR_SIDE_RIGHT_B := SENSOR_SIDE_RIGHT_B classic_setup;
     SENSOR_FRONT_LEFT_B := SENSOR_FRONT_LEFT_B classic_setup;
     SENSOR_FRONT_RIGHT_B := SENSOR_FRONT_RIGHT_B classic_setup |}.

(** A maze whose corridors have their middle at the [float] nearest to
    0.1 m. *)
Definition tenth_setup : setup :=
  {| CELL_DIMENSION := CELL_DIMENSION classic_setup;
     MIDDLE_MAZE_DISTANCE := Ieee.to_double (float_literal 1 1);
     PI := PI classic_setup;
     SENSOR_SIDE_LEFT_A := SENSOR_SIDE_LEFT_A classic_setup;
     SENSOR_SIDE_RIGHT_A := SENSOR_SIDE_RIGHT_A classic_setup;
     SENSOR_FRONT_LEFT_A := SENSOR_FRONT_LEFT_A classic_setup;
     SENSOR_FRONT_RIGHT_A := SENSOR_FRONT_RIGHT_A classic_setup;
     SENSOR_SIDE_LEFT_B := SENSOR_SIDE_LEFT_B classic_setup;
     SENSOR_SIDE_RIGHT_B := SENSOR_SIDE_RIGHT_B classic_setup;
     SENSOR_FRONT_LEFT_B := SENSOR_FRONT_LEFT_B classic_setup;
     SENSOR_FRONT_RIGHT_B := SENSOR_FRONT_RIGHT_B classic_setup |}.

(** A calibration window in which every reading of every sensor is [d]. *)
Definition steady_readings (d : spec_float) : nat -> array spec_float :=
  fun _ _ => d.

(** The controller cruising at [v] m/s with acceleration and deceleration
    magnitudes of 4 m/s^2 and no rotation. *)
Definition cruise (v : spec_float) : Move.control :=
  {| Move.target_linear_speed := v;
     Move.target_angular_speed := Ieee.pzero;
     Move.linear_acceleration := float_literal 4 0;
     Move.linear_deceleration := float_literal 4 0 |}.

(** A robot cruising at 0.8 m/s in the middle of a cell, with both
    wall-based corrections off. *)
Definition cruising : Motion.robot :=
  {| Motion.control := cruise (float_literal 8 1);
     Motion.walls :=
       {| Motion.front_control := false; Motion.side_control := false |};
     Motion.cell := mid_cell |}.

(** A straight run: the odometry passes 0.05 m and then 0.09 m, while the
    clock is read every 100 ticks. *)
Definition straight_run : Motion.oracle :=
  {| Motion.encoder_reads := [0; 50000; 90001; 90500; 91000];
     Motion.clock_reads := [1000; 1100; 1200; 1300] |}.

(** The same run 50 ticks before the clock wraps. *)
Definition straight_run_late : Motion.oracle :=
  {| Motion.encoder_reads := [0; 50000; 90001; 90500; 91000];
     Motion.clock_reads := [2 ^ 32 - 50; 2 ^ 32 - 49; 2 ^ 32 - 48] |}.

(** A step to the left: the robot is past the point where it slows down,
    the clock is read 40 ticks later and then every 100 ticks, and the
    odometry passes the 0.02 m that follow the turn. *)
Definition left_step_run : Motion.oracle :=
  {| Motion.encoder_reads := [0; 30000; 40000; 50000; 50500; 51000];
     Motion.clock_reads := [1000; 1040; 2000; 2100; 2200; 2300] |}.

(** The robot after that step: a new cell marked at 50500 micrometers. *)
Definition left_step_end : Motion.robot :=
  {| Motion.control := cruise (float_literal 8 1);
     Motion.walls :=
       {| Motion.front_control := false; Motion.side_control := true |};
     Motion.cell :=
       {| Move.max_linear_speed := float_literal 8 1;
          Move.cell_shift := Ieee.pzero;
          Move.current_cell_start_micrometers := 50500;
          Move.led_left := true |} |}.

(** The instance of the C library built on [log_model]. *)
#[export] Instance libm_model : Libm.
Proof.
  refine {| log := log_model |}; try reflexivity.
  intros x H; destruct x as [s | s | | s m e];
    try destruct s; try discriminate H; reflexivity.
Defined.

(** ** Notions used in the statements *)

Section Notions.
Import Ieee Detection.
Local Open Scope nat_scope.

Variable cfg : setup.
Context {libm : Libm}.

(** What holds at every tick: the phase and the index are in range, and an
    emitter is powered exactly when it is the active sensor's and the
    machine stands between its phase 1 and its phase 3. *)
Definition cycle_inv (s : state) : Prop :=
  1 <= emitter_status s <= 4 /\
  sensor_index s < NUM_SENSOR /\
  forall j,
    emitter_armed s j =
    Nat.eqb j (sensor_index s)
    && (Nat.eqb (emitter_status s) 2 || Nat.eqb (emitter_status s) 3).

Definition next_status (st : nat) : nat := if Nat.eqb st 4 then 1 else S st.

Definition next_index (st i : nat) : nat :=
  if Nat.eqb st 4 then (if Nat.eqb i 3 then 0 else S i) else i.

(** The estimate of one sensor before the drift offset is applied:
    a / ln (raw_on - raw_off) - b. *)
Definition estimate (s : state) (i : nat) : spec_float :=
  to_float
    (d_sub
       (d_div (to_double (sensors_calibration_a cfg i))
              (log (to_double
                      (int_to_float (sensors_on s i - sensors_off s i)%Z))))
       (to_double (sensors_calibration_b cfg i))).

Definition is_side_sensor (i : nat) : bool :=
  Nat.eqb i SENSOR_SIDE_LEFT_ID || Nat.eqb i SENSOR_SIDE_RIGHT_ID.

(** A finite non-zero [float]. *)
Definition finite_nonzero (x : spec_float) : bool :=
  match x with
  | S754_finite _ m e => bounded prec32 emax32 m e
  | _ => false
  end.

(** The readings of one sensor over the calibration window, their [float]
    sum and mean, and the mean less MIDDLE_MAZE_DISTANCE. *)
Definition window (readings : nat -> array spec_float) (i : nat)
  : list spec_float :=
  map (fun k => readings k i) (seq 0 SIDE_CALIBRATION_READINGS).

Definition float_sum (xs : list spec_float) : spec_float :=
  fold_left f_add xs (int_to_float 0).

Definition window_mean (readings : nat -> array spec_float) (i : nat)
  : spec_float :=
  f_div (float_sum (window readings i))
        (int_to_float (Z.of_nat (length (window readings i)))).

Definition correction (readings : nat -> array spec_float) (i : nat)
  : spec_float :=
  d_sub (to_double (window_mean readings i)) (MIDDLE_MAZE_DISTANCE cfg).

Local Open Scope Z_scope.

(** The distance the constant-acceleration model needs to change the speed
    from [target_speed] to [speed], in micrometers. *)
Definition kinematic_micrometers
    (speed target_speed acceleration : spec_float) : spec_float :=
  f_mul
    (f_div (f_sub (f_mul speed speed) (f_mul target_speed target_speed))
           (f_mul (int_to_float 2) acceleration))
    (int_to_float MICROMETERS_PER_METER).

(** Where a turn stands, and what it has commanded, once [e] ticks have
    elapsed since its first clock read. *)
Definition turn_phase (e : Z) : Move.turn_pc :=
  if e <=? 88 then Move.Turning
  else if e <=? 176 then Move.Settling
  else Move.Returned.

Definition turn_at (angular_speed : spec_float) (c : Move.control)
    (start e : Z) : Move.turn_state :=
  {| Move.pc := turn_phase e;
     Move.starting_time := start;
     Move.ctl :=
       Move.set_target_angular_speed
         (if e <=? 88 then angular_speed else int_to_float 0) c |}.

(** What [decelerate] has commanded when it returns. *)
Definition decelerated (speed : spec_float) (r : Motion.robot)
  : Motion.robot :=
  Motion.set_control
    (Motion.set_target_linear_speed speed
       (Move.set_target_angular_speed pzero (Motion.control r))) r.

(** The robot at rest after a stop: no linear and no angular speed
    commanded and both wall-based corrections off. *)
Definition halted (r : Motion.robot) : Motion.robot :=
  {| Motion.control := Motion.control (decelerated pzero r);
     Motion.walls :=
       {| Motion.front_control := false; Motion.side_control := false |};
     Motion.cell := Motion.cell r |}.

(** The distance [stop_middle] travels from the cell start. *)
Definition half_cell : spec_float :=
  to_float (d_div (CELL_DIMENSION cfg) (literal 2 0)).

(** The controller after a maneuver that ends with [accelerate]. *)
Definition at_full_speed (r : Motion.robot) : Move.control :=
  Motion.set_target_linear_speed (Move.max_linear_speed (Motion.cell r))
    (Move.set_target_angular_speed pzero (Motion.control r)).

(** What every state of a turn satisfies: the starting time and the rest of
    the controller are those of the entry, and the angular speed commanded
    is the turning speed inside the first wait and 0 after it. *)
Definition turn_inv (w : spec_float) (c : Move.control) (now : Z)
    (t : Move.turn_state) : Prop :=
  Move.starting_time t = now
  /\ Move.ctl t
     = Move.set_target_angular_speed
         (match Move.pc t with
          | Move.Turning => w
          | _ => int_to_float 0
          end) c.

(** What a busy-wait consumes of the reads it is given: the reads below its
    target and the first one that is not; [rest] is what it leaves. *)
Definition reaches (target : Z) (reads rest : list Z) : Prop :=
  exists pre r0,
    reads = pre ++ r0 :: rest
    /\ Forall (fun e => e < target) pre /\ target <= r0.

(** The encoder reads a call of [accelerate] consumes: those up to the first
    one not below [start] plus [distance] in whole micrometers. *)
Definition accelerated (start : Z) (distance : spec_float)
    (reads rest : list Z) : Prop :=
  exists d,
    to_int32 (f_mul distance (int_to_float MICROMETERS_PER_METER)) = Some d
    /\ reaches (wrap_int32 (start + d)) reads rest.

(** The reads a call of [decelerate] consumes: the encoder reads up to the
    first one not below the cut-over point, then one clock read and the
    clock reads up to the first one not below that read plus the ticks
    needed. *)
Definition slowed (SYSTICK_FREQUENCY_HZ start : Z)
    (distance speed : spec_float) (r : Motion.robot) (o o' : Motion.oracle)
  : Prop :=
  exists d m t now later,
    to_int32 (f_mul distance (int_to_float MICROMETERS_PER_METER)) = Some d
    /\ Move.required_micrometers_to_speed (Motion.control r) speed = Some m
    /\ Motion.required_ticks_to_speed SYSTICK_FREQUENCY_HZ (at_full_speed r)
         speed = Some t
    /\ reaches (wrap_int32 (wrap_int32 (start + d) - wrap_int32 m))
         (Motion.encoder_reads o) (Motion.encoder_reads o')
    /\ Motion.clock_reads o = now :: later
    /\ reaches (wrap_uint32 (t + now)) later (Motion.clock_reads o').

(** The clock reads a turn consumes: the first one and then the shortest
    run of reads at which the turn has returned, at least two. *)
Definition turned
    (turn : Z -> list Z -> Move.control -> Move.turn_state)
    (c : Move.control) (reads rest : list Z) : Prop :=
  exists now polls,
    reads = now :: polls ++ rest
    /\ (2 <= length polls)%nat
    /\ Move.pc (turn now polls c) = Move.Returned
    /\ Move.pc (turn now (removelast polls) c) <> Move.Returned.

End Notions.

(** ** Facts about the arithmetic *)

Section IeeeFacts.
Import Ieee.

Lemma lt_nan_l : forall y, lt S754_nan y = false.
Proof. reflexivity. Qed.

Lemma lt_nan_r : forall x, lt x S754_nan = false.
Proof. intros x; destruct x as [s | s | | s m e]; reflexivity. Qed.

Lemma gt_nan_l : forall y, gt S754_nan y = false.
Proof. intros y; apply lt_nan_r. Qed.

Lemma gt_nan_r : forall x, gt x S754_nan = false.
Proof. reflexivity. Qed.

(** Numerically equal operands are not strictly ordered. *)
Lemma eq_not_lt : forall x y, eq x y = true -> lt x y = false.
Proof.
  intros x y; unfold eq, lt, SFeqb, SFltb.
  destruct (SFcompare x y) as [[ | | ] | ]; intros H;
    try reflexivity; discriminate H.
Qed.

Lemma SFcompare_refl :
  forall x, x <> S754_nan -> SFcompare x x = Some Eq.
Proof.
  intros x Hx; destruct x as [s | s | | s m e]; cbn.
  - reflexivity.
  - destruct s; reflexivity.
  - contradiction Hx; reflexivity.
  - destruct s; rewrite Z.compare_refl;
      change (Pos.compare_cont Eq m m) with (Pos.compare m m);
      rewrite Pos.compare_refl; reflexivity.
Qed.

Lemma lt_irrefl : forall x, lt x x = false.
Proof.
  intros x; destruct x as [s | s | | s m e];
    try (apply eq_not_lt; unfold eq, SFeqb;
         rewrite SFcompare_refl by discriminate; reflexivity).
  reflexivity.
Qed.

Lemma SFcompare_antisym :
  forall x y,
    SFcompare y x = option_map CompOpp (SFcompare x y).
Proof.
  intros x y;
    destruct x as [sx | sx | | sx mx ex], y as [sy | sy | | sy my ey];
    cbn; try destruct sx; try destruct sy; try reflexivity;
    rewrite (Z.compare_antisym ex ey);
    change (Pos.compare_cont Eq my mx) with (Pos.compare my mx);
    change (Pos.compare_cont Eq mx my) with (Pos.compare mx my);
    rewrite (Pos.compare_antisym mx my);
    destruct (Z.compare ex ey), (Pos.compare mx my); reflexivity.
Qed.

(** [<] is asymmetric. *)
Lemma lt_asym : forall x y, lt x y = true -> lt y x = false.
Proof.
  intros x y; unfold lt, SFltb; rewrite (SFcompare_antisym x y).
  destruct (SFcompare x y) as [[ | | ] | ]; intros H;
    try reflexivity; discriminate H.
Qed.

Lemma is_nan_eq : forall x, is_nan x = true -> x = S754_nan.
Proof.
  intros x; destruct x as [s | s | | s m e]; intros H;
    try reflexivity; discriminate H.
Qed.

End IeeeFacts.

(** ** Facts about rounding

    Conversions between the two formats and from small integers are exact:
    they only pad or unpad the mantissa with zero bits. *)

Section Rounding.
Import Ieee.
Variables prec emax : Z.

Lemma iter_pos_iter :
  forall (A : Type) (f : A -> A) (p : positive) (x : A),
    iter_pos f p x = Pos.iter f x p.
Proof.
  intros A f p; induction p as [p IH | p IH | ]; intros x; cbn.
  - rewrite !IH, !Pos.iter_swap; reflexivity.
  - rewrite !IH; reflexivity.
  - reflexivity.
Qed.

Lemma digits2_pos_shl :
  forall k m, digits2_pos (Pos.iter xO m k) = (digits2_pos m + k)%positive.
Proof.
  intros k; induction k as [ | k IH] using Pos.peano_ind; intros m.
  - cbn; lia.
  - rewrite Pos.iter_succ; cbn [digits2_pos]; rewrite IH; lia.
Qed.

Lemma shr_shl :
  forall k m,
    iter_pos shr_1 k
      {| shr_m := Zpos (Pos.iter xO m k); shr_r := false; shr_s := false |}
    = {| shr_m := Zpos m; shr_r := false; shr_s := false |}.
Proof.
  intros k m; rewrite iter_pos_iter; revert m.
  induction k as [ | k IH] using Pos.peano_ind; intros m.
  - reflexivity.
  - rewrite !Pos.iter_succ, <- (Pos.iter_swap k _ xO m), IH; reflexivity.
Qed.

Lemma binary_round_aux_canonical :
  forall s m e,
    bounded prec emax m e = true ->
    binary_round_aux prec emax s (Zpos m) e loc_Exact = S754_finite s m e.
Proof.
  intros s m e Hb; unfold bounded, canonical_mantissa in Hb.
  apply andb_prop in Hb; destruct Hb as (Hc & He).
  apply Z.eqb_eq in Hc.
  unfold binary_round_aux, shr_fexp; cbn [Zdigits2 shr_record_of_loc].
  rewrite Hc, Z.sub_diag; cbn [shr shr_m loc_of_shr_record round_nearest_even].
  cbn [Zdigits2 shr_record_of_loc]; rewrite Hc, Z.sub_diag.
  cbn [shr shr_m]; rewrite He; reflexivity.
Qed.

Lemma binary_round_canonical :
  forall s m e,
    bounded prec emax m e = true ->
    binary_round prec emax s m e = S754_finite s m e.
Proof.
  intros s m e Hb; unfold binary_round.
  assert (Hc : fexp prec emax (Zpos (digits2_pos m) + e) = e).
  { unfold bounded, canonical_mantissa in Hb.
    apply andb_prop in Hb; apply Z.eqb_eq; tauto. }
  rewrite Hc; unfold shl_align; rewrite Z.sub_diag.
  apply binary_round_aux_canonical; exact Hb.
Qed.

Lemma pad_bounded :
  forall m e k,
    fexp prec emax (Zpos (digits2_pos m) + e) = e - Zpos k ->
    e - Zpos k <= emax - prec ->
    bounded prec emax (Pos.iter xO m k) (e - Zpos k) = true.
Proof.
  intros m e k Hf He; unfold bounded, canonical_mantissa.
  rewrite digits2_pos_shl.
  replace (Zpos (digits2_pos m + k) + (e - Zpos k))
    with (Zpos (digits2_pos m) + e) by lia.
  rewrite Hf, Z.eqb_refl; apply Z.leb_le; exact He.
Qed.

(** Padding the mantissa with [k] zero bits. *)
Lemma binary_round_pad :
  forall s m e k,
    fexp prec emax (Zpos (digits2_pos m) + e) = e - Zpos k ->
    e - Zpos k <= emax - prec ->
    binary_round prec emax s m e
    = S754_finite s (Pos.iter xO m k) (e - Zpos k).
Proof.
  intros s m e k Hf He; unfold binary_round.
  rewrite Hf; unfold shl_align.
  replace (e - Zpos k - e) with (Zneg k) by lia.
  apply binary_round_aux_canonical, pad_bounded; assumption.
Qed.

(** Rounding a padded canonical mantissa removes the padding. *)
Lemma binary_round_aux_unpad :
  forall s m e k,
    canonical_mantissa prec emax m e = true ->
    binary_round_aux prec emax s (Zpos (Pos.iter xO m k)) (e - Zpos k)
      loc_Exact
    = if e <=? emax - prec then S754_finite s m e else S754_infinity s.
Proof.
  intros s m e k Hc; apply Z.eqb_eq in Hc.
  unfold binary_round_aux, shr_fexp; cbn [Zdigits2 shr_record_of_loc].
  rewrite digits2_pos_shl.
  replace (Zpos (digits2_pos m + k) + (e - Zpos k))
    with (Zpos (digits2_pos m) + e) by lia.
  rewrite Hc.
  replace (e - (e - Zpos k)) with (Zpos k) by lia.
  cbn [shr]; rewrite shr_shl.
  cbn [shr_m loc_of_shr_record round_nearest_even Zdigits2 shr_record_of_loc].
  replace (e - Zpos k + Zpos k) with e by lia.
  rewrite Hc, Z.sub_diag; reflexivity.
Qed.
Lemma binary_round_unpad :
  forall s m e k,
    bounded prec emax m e = true ->
    binary_round prec emax s (Pos.iter xO m k) (e - Zpos k)
    = S754_finite s m e.
Proof.
  intros s m e k Hb; unfold bounded in Hb.
  apply andb_prop in Hb; destruct Hb as (Hc & He).
  unfold binary_round; rewrite digits2_pos_shl.
  replace (Zpos (digits2_pos m + k) + (e - Zpos k))
    with (Zpos (digits2_pos m) + e) by lia.
  rewrite (proj1 (Z.eqb_eq _ _) Hc); unfold shl_align.
  replace (e - (e - Zpos k)) with (Zpos k) by lia.
  rewrite binary_round_aux_unpad, He by exact Hc; reflexivity.
Qed.

End Rounding.

Section Conversions.
Import Ieee.

Lemma digits2_pos_lower :
  forall p, 2 ^ (Zpos (digits2_pos p) - 1) <= Zpos p.
Proof.
  induction p as [p IH | p IH | ]; cbn [digits2_pos]; try (cbn; lia);
    rewrite Pos2Z.inj_succ;
    replace (Z.succ (Zpos (digits2_pos p)) - 1)
      with (Z.succ (Zpos (digits2_pos p) - 1)) by lia;
    rewrite Z.pow_succ_r by lia; lia.
Qed.

Lemma digits2_pos_bound :
  forall p n, 0 <= n -> Zpos p < 2 ^ n -> Zpos (digits2_pos p) <= n.
Proof.
  intros p n Hn Hp.
  pose proof (digits2_pos_lower p) as Hl.
  destruct (Z_le_gt_dec (Zpos (digits2_pos p)) n) as [H | H]; [exact H | ].
  assert (2 ^ n <= 2 ^ (Zpos (digits2_pos p) - 1))
    by (apply Z.pow_le_mono_r; lia).
  lia.
Qed.

Lemma bounded32_inv :
  forall m e,
    bounded prec32 emax32 m e = true ->
    Zpos (digits2_pos m) <= 24 /\ -149 <= e <= 104
    /\ (Zpos (digits2_pos m) = 24 \/ e = -149).
Proof.
  intros m e Hb; unfold bounded, canonical_mantissa in Hb.
  apply andb_prop in Hb; destruct Hb as (Hc & He).
  apply Z.eqb_eq in Hc; apply Z.leb_le in He.
  unfold fexp, emin, prec32, emax32 in Hc, He; lia.
Qed.

(** Promotion pads the mantissa of a [float] to 53 bits. *)
Lemma to_double_finite :
  forall s m e,
    bounded prec32 emax32 m e = true ->
    exists k,
      Zpos k = 53 - Zpos (digits2_pos m) /\
      to_double (S754_finite s m e)
      = S754_finite s (Pos.iter xO m k) (e - Zpos k).
Proof.
  intros s m e Hb; destruct (bounded32_inv m e Hb) as (Hd & He & _).
  destruct (53 - Zpos (digits2_pos m)) as [ | k | k] eqn:Ek; try lia.
  exists k; split; [reflexivity | ].
  cbn [to_double]; apply binary_round_pad;
    unfold fexp, emin, prec64, emax64; lia.
Qed.

(** A [float] promoted to [double] and narrowed again is unchanged. *)
Lemma to_float_to_double :
  forall x, valid_binary prec32 emax32 x = true -> to_float (to_double x) = x.
Proof.
  intros [s | s | | s m e] Hv; try reflexivity.
  cbn [valid_binary] in Hv.
  destruct (to_double_finite s m e Hv) as (k & _ & ->).
  cbn [to_float]; apply binary_round_unpad; exact Hv.
Qed.

(** Integers below 2^24 in magnitude convert to [float] exactly, keeping
    their sign. *)
Lemma int_to_float_small :
  forall s p,
    Zpos p < 2 ^ 24 ->
    exists m e,
      binary_round prec32 emax32 s p 0 = S754_finite s m e
      /\ bounded prec32 emax32 m e = true.
Proof.
  intros s p Hp.
  pose proof (digits2_pos_bound p 24 ltac:(lia) Hp) as Hd.
  destruct (24 - Zpos (digits2_pos p)) as [ | k | k] eqn:Ek; try lia.
  - exists p, 0.
    assert (Hb : bounded prec32 emax32 p 0 = true).
    { unfold bounded, canonical_mantissa, fexp, emin, prec32, emax32.
      apply andb_true_intro; split; [apply Z.eqb_eq | apply Z.leb_le]; lia. }
    split; [apply binary_round_canonical | ]; exact Hb.
  - exists (Pos.iter xO p k), (0 - Zpos k).
    assert (Hf : fexp prec32 emax32 (Zpos (digits2_pos p) + 0) = 0 - Zpos k)
      by (unfold fexp, emin, prec32, emax32; lia).
    assert (He : 0 - Zpos k <= emax32 - prec32)
      by (unfold prec32, emax32; lia).
    split; [apply binary_round_pad | apply pad_bounded]; assumption.
Qed.

Lemma int_to_float_negative :
  forall z, - 2 ^ 24 < z < 0 -> lt (to_double (int_to_float z)) pzero = true.
Proof.
  intros [ | p | p] Hz; try lia.
  unfold int_to_float; cbn [binary_normalize].
  destruct (int_to_float_small true p) as (m & e & -> & Hb); [lia | ].
  destruct (to_double_finite true m e Hb) as (k & _ & ->); reflexivity.
Qed.

(** Doubling a positive [float] gives a positive [float] or overflows to
    plus infinity. *)
Lemma mul_two_positive :
  forall m e,
    bounded prec32 emax32 m e = true ->
    f_mul (int_to_float 2) (S754_finite false m e) = S754_infinity false
    \/ exists m' e',
         f_mul (int_to_float 2) (S754_finite false m e)
         = S754_finite false m' e'.
Proof.
  intros m e Hb.
  change (int_to_float 2) with (S754_finite false 8388608 (-22)).
  cbn [f_mul SFmul xorb].
  destruct (bounded32_inv m e Hb) as (Hd & He & _).
  destruct (Z.eq_dec (Zpos (digits2_pos m)) 24) as [Hn | Hn].
  - change (8388608 * m)%positive with (Pos.iter xO m 23).
    replace (-22 + e) with (e + 1 - Zpos 23) by lia.
    rewrite binary_round_aux_unpad.
    + destruct (e + 1 <=? emax32 - prec32); [right | left]; eauto.
    + unfold canonical_mantissa, fexp, emin, prec32, emax32.
      apply Z.eqb_eq; lia.
  - assert (Hs : e = -149).
    { destruct (bounded32_inv m e Hb) as (_ & _ & [H | H]); [lia | exact H]. }
    change (8388608 * m)%positive with (Pos.iter xO (xO m) 22).
    replace (-22 + e) with (e - Zpos 22) by lia.
    rewrite binary_round_aux_unpad.
    + destruct (e <=? emax32 - prec32); [right | left]; eauto.
    + unfold canonical_mantissa, fexp, emin, prec32, emax32.
      cbn [digits2_pos]; rewrite Pos2Z.inj_succ.
      apply Z.eqb_eq; lia.
Qed.

End Conversions.

(** ** Facts about equal operands *)

Section EqualOperands.
Import Ieee.

(** Numerically equal operands are identical, or are two zeros. *)
Lemma eq_cases :
  forall x y,
    eq x y = true ->
    x = y \/ exists sx sy, x = S754_zero sx /\ y = S754_zero sy.
Proof.
  intros x y; unfold eq, SFeqb.
  destruct x as [sx | sx | | sx mx ex], y as [sy | sy | | sy my ey];
    cbn; try destruct sx; try destruct sy; try discriminate;
    try (intros _; left; reflexivity);
    try (intros _; right; eexists; eexists; split; reflexivity);
    destruct (Z.compare_spec ex ey) as [He | He | He]; try discriminate;
    change (Pos.compare_cont Eq mx my) with (Pos.compare mx my);
    destruct (Pos.compare_spec mx my) as [Hm | Hm | Hm]; try discriminate;
    intros _; left; subst; reflexivity.
Qed.

Lemma SFsub_diag :
  forall prec emax x,
    is_finite x = true -> exists s, SFsub prec emax x x = S754_zero s.
Proof.
  intros prec emax [s | s | | s m e] Hx; try discriminate Hx.
  - exists false; destruct s; reflexivity.
  - exists false; cbn [SFsub]; rewrite Z.sub_diag; reflexivity.
Qed.

(** The difference of two numerically equal finite operands is a zero. *)
Lemma sub_eq_zero :
  forall prec emax x y,
    eq x y = true -> is_finite y = true ->
    exists s, SFsub prec emax x y = S754_zero s.
Proof.
  intros prec emax x y Heq Hy.
  destruct (eq_cases x y Heq) as [-> | (sx & sy & -> & ->)].
  - apply SFsub_diag; exact Hy.
  - destruct sx, sy; eexists; reflexivity.
Qed.

Lemma mul_self_eq :
  forall x y, eq x y = true -> f_mul x x = f_mul y y.
Proof.
  intros x y Heq; destruct (eq_cases x y Heq) as [-> | (sx & sy & -> & ->)].
  - reflexivity.
  - destruct sx, sy; reflexivity.
Qed.

Lemma eq_not_gt : forall x y, eq x y = true -> gt y x = false.
Proof. intros x y H; unfold gt; apply eq_not_lt; exact H. Qed.

End EqualOperands.

(** ** The sensing cycle *)

Section SensorCycle.
Import Detection.
Local Open Scope nat_scope.

Lemma testbit_set_same : forall a, Z.testbit (gpio_set a GPIO9) 9 = true.
Proof.
  intros a; unfold gpio_set; rewrite Z.lor_spec; apply orb_true_r.
Qed.

Lemma testbit_set_same8 : forall a, Z.testbit (gpio_set a GPIO8) 8 = true.
Proof.
  intros a; unfold gpio_set; rewrite Z.lor_spec; apply orb_true_r.
Qed.

Lemma testbit_set_other98 :
  forall a, Z.testbit (gpio_set a GPIO9) 8 = Z.testbit a 8.
Proof.
  intros a; unfold gpio_set; rewrite Z.lor_spec; apply orb_false_r.
Qed.

Lemma testbit_set_other89 :
  forall a, Z.testbit (gpio_set a GPIO8) 9 = Z.testbit a 9.
Proof.
  intros a; unfold gpio_set; rewrite Z.lor_spec; apply orb_false_r.
Qed.

Lemma testbit_clear_same : forall a, Z.testbit (gpio_clear a GPIO9) 9 = false.
Proof.
  intros a; unfold gpio_clear; rewrite Z.ldiff_spec; apply andb_false_r.
Qed.

Lemma testbit_clear_same8 :
  forall a, Z.testbit (gpio_clear a GPIO8) 8 = false.
Proof.
  intros a; unfold gpio_clear; rewrite Z.ldiff_spec; apply andb_false_r.
Qed.

Lemma testbit_clear_other98 :
  forall a, Z.testbit (gpio_clear a GPIO9) 8 = Z.testbit a 8.
Proof.
  intros a; unfold gpio_clear; rewrite Z.ldiff_spec; apply andb_true_r.
Qed.

Lemma testbit_clear_other89 :
  forall a, Z.testbit (gpio_clear a GPIO8) 9 = Z.testbit a 9.
Proof.
  intros a; unfold gpio_clear; rewrite Z.ldiff_spec; apply andb_true_r.
Qed.

Ltac gpio_bits :=
  rewrite ?testbit_set_same, ?testbit_set_same8, ?testbit_set_other98,
    ?testbit_set_other89, ?testbit_clear_same, ?testbit_clear_same8,
    ?testbit_clear_other98, ?testbit_clear_other89.

(** One tick preserves the invariant and moves the phase and the index as
    [next_status] and [next_index] say. *)
Lemma sm_emitter_adc_step :
  forall adc1 s,
    cycle_inv s ->
    cycle_inv (sm_emitter_adc adc1 s) /\
    emitter_status (sm_emitter_adc adc1 s) = next_status (emitter_status s) /\
    sensor_index (sm_emitter_adc adc1 s)
    = next_index (emitter_status s) (sensor_index s).
Proof.
  intros adc1 [pa pb st ix soff son d cf] (Hst & Hix & Harm).
  cbn [emitter_status sensor_index] in Hst, Hix, Harm.
  pose proof (Harm 0) as H0; pose proof (Harm 1) as H1;
    pose proof (Harm 2) as H2; pose proof (Harm 3) as H3.
  cbn [emitter_armed GPIOA GPIOB] in H0, H1, H2, H3.
  unfold NUM_SENSOR in *.
  destruct st as [ | [ | [ | [ | [ | st]]]]]; try lia;
    destruct ix as [ | [ | [ | [ | ix]]]]; try lia;
    cbn -[Z.testbit] in H0, H1, H2, H3;
    (split; [ | split; reflexivity]);
    (split; [cbn; lia | split; [unfold NUM_SENSOR; cbn; lia | ]]);
    intros [ | [ | [ | [ | j]]]];
    cbn -[Z.testbit gpio_set gpio_clear];
    gpio_bits; auto.
Qed.

Lemma next_status_tick :
  forall n, next_status (n mod 4 + 1) = S n mod 4 + 1.
Proof.
  intros n; unfold next_status.
  destruct (Nat.eqb_spec (n mod 4 + 1) 4); lia.
Qed.

Lemma next_index_tick :
  forall n, next_index (n mod 4 + 1) ((n / 4) mod 4) = (S n / 4) mod 4.
Proof.
  intros n; unfold next_index.
  destruct (Nat.eqb_spec (n mod 4 + 1) 4);
    [destruct (Nat.eqb_spec ((n / 4) mod 4) 3) | ]; lia.
Qed.

(** The state after [n] ticks from a state at the start of a round. *)
Lemma sensor_cycle_phase :
  forall adc s0 n,
    cycle_inv s0 -> emitter_status s0 = 1 -> sensor_index s0 = 0 ->
    cycle_inv (sensor_cycle adc n s0) /\
    emitter_status (sensor_cycle adc n s0) = n mod 4 + 1 /\
    sensor_index (sensor_cycle adc n s0) = (n / 4) mod 4.
Proof.
  intros adc s0 n Hinv Hst Hix; induction n as [ | n IH].
  - cbn [sensor_cycle]; rewrite Hst, Hix; auto.
  - destruct IH as (IHinv & IHst & IHix).
    cbn [sensor_cycle tim1_up_isr].
    destruct (sm_emitter_adc_step (adc n) _ IHinv) as (Hinv' & Hst' & Hix').
    rewrite Hst', Hix', IHst, IHix, next_status_tick, next_index_tick.
    auto.
Qed.

(** Sixteen ticks from the start of a round store, for every sensor, the
    reading of its phase 1 as "off" and the reading of its phase 3 as
    "on". *)
Lemma sensor_cycle_round :
  forall adc s,
    emitter_status s = 1 -> sensor_index s = 0 ->
    forall i, i < NUM_SENSOR ->
      sensors_off (sensor_cycle adc 16 s) i = Ieee.wrap_uint16 (adc (4 * i))
      /\ sensors_on (sensor_cycle adc 16 s) i
         = Ieee.wrap_uint16 (adc (4 * i + 2)).
Proof.
  intros adc [pa pb st ix soff son d cf] Hst Hix i Hi.
  cbn [emitter_status sensor_index] in Hst, Hix; subst st ix.
  unfold NUM_SENSOR in Hi.
  destruct i as [ | [ | [ | [ | i]]]]; try lia; split; reflexivity.
Qed.

Lemma sensor_cycle_app :
  forall adc a b s,
    sensor_cycle adc (a + b) s
    = sensor_cycle (fun k => adc (a + k)) b (sensor_cycle adc a s).
Proof.
  intros adc a b s; induction b as [ | b IH].
  - rewrite Nat.add_0_r; reflexivity.
  - rewrite Nat.add_succ_r; cbn [sensor_cycle]; rewrite IH; reflexivity.
Qed.

(** C9.  From a state in phase 1 with sensor index 0 and every emitter off,
    after any number [n] of ticks the phase is [n mod 4 + 1] and the active
    sensor is [(n / 4) mod 4], so the index advances 0, 1, 2, 3, 0 one step
    every four ticks; an emitter is powered exactly when it is the active
    sensor's and the phase is 2 or 3 (armed by phase 1, disarmed by
    phase 3), so no two emitters are ever powered together; and in every
    round of sixteen ticks each of the four sensors gets its "off" reading
    and then its "on" reading stored. *)
Theorem sensor_cycle_one_emitter :
  forall (adc : nat -> Z) (s0 : state),
    emitter_status s0 = 1 ->
    sensor_index s0 = 0 ->
    (forall j, emitter_armed s0 j = false) ->
    (forall n,
       emitter_status (sensor_cycle adc n s0) = n mod 4 + 1 /\
       sensor_index (sensor_cycle adc n s0) = (n / 4) mod 4 /\
       (forall j,
          emitter_armed (sensor_cycle adc n s0) j =
          Nat.eqb j ((n / 4) mod 4)
          && (Nat.eqb (n mod 4) 1 || Nat.eqb (n mod 4) 2)) /\
       (forall j k,
          emitter_armed (sensor_cycle adc n s0) j = true ->
          emitter_armed (sensor_cycle adc n s0) k = true -> j = k)) /\
    (forall r i,
       i < NUM_SENSOR ->
       sensors_off (sensor_cycle adc (16 * r + 16) s0) i
       = Ieee.wrap_uint16 (adc (16 * r + 4 * i)) /\
       sensors_on (sensor_cycle adc (16 * r + 16) s0) i
       = Ieee.wrap_uint16 (adc (16 * r + (4 * i + 2)))).
Proof.
  intros adc s0 Hst Hix Hoff.
  assert (Hinv : cycle_inv s0).
  { unfold cycle_inv, NUM_SENSOR; rewrite Hst, Hix.
    repeat split; try lia.
    intros j; rewrite Hoff, andb_false_r; reflexivity. }
  split.
  - intros n.
    destruct (sensor_cycle_phase adc s0 n Hinv Hst Hix)
      as ((_ & _ & Harm) & Hst' & Hix').
    assert (Harm' :
      forall j,
        emitter_armed (sensor_cycle adc n s0) j =
        Nat.eqb j ((n / 4) mod 4)
        && (Nat.eqb (n mod 4) 1 || Nat.eqb (n mod 4) 2)).
    { intros j; rewrite Harm, Hst', Hix'.
      replace (n mod 4 + 1) with (S (n mod 4)) by lia; reflexivity. }
    repeat split; auto.
    intros j k Hj Hk; rewrite Harm' in Hj, Hk.
    apply andb_prop in Hj, Hk.
    destruct Hj as (Hj & _), Hk as (Hk & _).
    apply Nat.eqb_eq in Hj, Hk; congruence.
  - intros r i Hi.
    destruct (sensor_cycle_phase adc s0 (16 * r) Hinv Hst Hix)
      as (_ & Hst' & Hix').
    rewrite sensor_cycle_app.
    destruct (sensor_cycle_round (fun k => adc (16 * r + k))
                (sensor_cycle adc (16 * r) s0)) with (i := i)
      as (Hoff' & Hon'); auto; lia.
Qed.

Lemma sensor_cycle_one_emitter_witness :
  emitter_status initial = 1 /\
  sensor_index initial = 0 /\
  (forall j, emitter_armed initial j = false) /\
  emitter_status (sensor_cycle (fun k => Z.of_nat k) 5 initial) = 2 /\
  sensor_index (sensor_cycle (fun k => Z.of_nat k) 5 initial) = 1.
Proof.
  assert (Hoff : forall j, emitter_armed initial j = false).
  { intros [ | [ | [ | [ | j]]]]; reflexivity. }
  pose proof (proj1 (sensor_cycle_one_emitter (fun k => Z.of_nat k)
                       initial eq_refl eq_refl Hoff) 5) as H.
  split; [reflexivity | split; [reflexivity | split; [exact Hoff | ]]].
  split; [exact (proj1 H) | exact (proj1 (proj2 H))].
Defined.

End SensorCycle.

(** ** The wall detector *)

Section WallDetector.
Import Ieee Detection.

Variable cfg : setup.

(** C8.  Each wall detection is the strict comparison of the distances with
    its threshold: 0.90 x CELL_DIMENSION for the side walls, 1.5 x
    CELL_DIMENSION for both front sensors.  A distance equal to its threshold
    and a NaN distance therefore both give "not detected". *)
Theorem wall_detection_strict :
  forall s : state,
    (left_wall_detection cfg s
     = lt (to_double (distance s SENSOR_SIDE_LEFT_ID))
          (d_mul (CELL_DIMENSION cfg) (literal 90 2))) /\
    (right_wall_detection cfg s
     = lt (to_double (distance s SENSOR_SIDE_RIGHT_ID))
          (d_mul (CELL_DIMENSION cfg) (literal 90 2))) /\
    (front_wall_detection cfg s
     = lt (to_double (distance s SENSOR_FRONT_LEFT_ID))
          (d_mul (CELL_DIMENSION cfg) (literal 15 1))
       && lt (to_double (distance s SENSOR_FRONT_RIGHT_ID))
             (d_mul (CELL_DIMENSION cfg) (literal 15 1))) /\
    (eq (to_double (distance s SENSOR_SIDE_LEFT_ID))
        (SIDE_WALL_DETECTION cfg) = true
     \/ is_nan (distance s SENSOR_SIDE_LEFT_ID) = true ->
     left_wall_detection cfg s = false) /\
    (eq (to_double (distance s SENSOR_SIDE_RIGHT_ID))
        (SIDE_WALL_DETECTION cfg) = true
     \/ is_nan (distance s SENSOR_SIDE_RIGHT_ID) = true ->
     right_wall_detection cfg s = false) /\
    (eq (to_double (distance s SENSOR_FRONT_LEFT_ID))
        (FRONT_WALL_DETECTION cfg) = true
     \/ eq (to_double (distance s SENSOR_FRONT_RIGHT_ID))
           (FRONT_WALL_DETECTION cfg) = true
     \/ is_nan (distance s SENSOR_FRONT_LEFT_ID) = true
     \/ is_nan (distance s SENSOR_FRONT_RIGHT_ID) = true ->
     front_wall_detection cfg s = false).
Proof.
  intros s.
  unfold left_wall_detection, right_wall_detection, front_wall_detection.
  fold (SIDE_WALL_DETECTION cfg); fold (FRONT_WALL_DETECTION cfg).
  repeat match goal with
         | |- context [if ?b then true else false] =>
             replace (if b then true else false) with b
               by (destruct b; reflexivity)
         end.
  split; [reflexivity | split; [reflexivity | split; [reflexivity | ]]].
  split; [ | split].
  - intros [H | H]; [apply eq_not_lt; exact H | ].
    rewrite (is_nan_eq _ H); apply lt_nan_l.
  - intros [H | H]; [apply eq_not_lt; exact H | ].
    rewrite (is_nan_eq _ H); apply lt_nan_l.
  - intros [H | [H | [H | H]]].
    + rewrite (eq_not_lt _ _ H); reflexivity.
    + rewrite (eq_not_lt _ _ H); apply andb_false_r.
    + rewrite (is_nan_eq _ H); reflexivity.
    + rewrite (is_nan_eq _ H); cbn [to_double]; rewrite lt_nan_l.
      apply andb_false_r.
Qed.

(** C10.  When the side-left or the side-right distance is NaN, the side
    sensors error is 0. *)
Theorem side_sensors_error_nan :
  forall s : state,
    is_nan (distance s SENSOR_SIDE_LEFT_ID) = true
    \/ is_nan (distance s SENSOR_SIDE_RIGHT_ID) = true ->
    get_side_sensors_error cfg s = pzero.
Proof.
  intros s H; unfold get_side_sensors_error.
  destruct H as [H | H]; rewrite (is_nan_eq _ H); cbn [to_double];
    rewrite ?gt_nan_l, ?lt_nan_l, ?andb_false_r; reflexivity.
Qed.

(** C3, as the code has it.  The side sensors error compares the two side
    distances with MIDDLE_MAZE_DISTANCE, not with the wall threshold: it is
    side-right minus MIDDLE_MAZE_DISTANCE when side-left is above
    MIDDLE_MAZE_DISTANCE and side-right below it, MIDDLE_MAZE_DISTANCE minus
    side-left when side-right is above and side-left below, and 0 in every
    other case. *)
Theorem side_sensors_error_cases :
  forall s : state,
    (gt (to_double (distance s SENSOR_SIDE_LEFT_ID))
        (MIDDLE_MAZE_DISTANCE cfg) = true ->
     lt (to_double (distance s SENSOR_SIDE_RIGHT_ID))
        (MIDDLE_MAZE_DISTANCE cfg) = true ->
     get_side_sensors_error cfg s
     = to_float (d_sub (to_double (distance s SENSOR_SIDE_RIGHT_ID))
                       (MIDDLE_MAZE_DISTANCE cfg))) /\
    (gt (to_double (distance s SENSOR_SIDE_RIGHT_ID))
        (MIDDLE_MAZE_DISTANCE cfg) = true ->
     lt (to_double (distance s SENSOR_SIDE_LEFT_ID))
        (MIDDLE_MAZE_DISTANCE cfg) = true ->
     get_side_sensors_error cfg s
     = to_float (d_sub (MIDDLE_MAZE_DISTANCE cfg)
                       (to_double (distance s SENSOR_SIDE_LEFT_ID)))) /\
    (gt (to_double (distance s SENSOR_SIDE_LEFT_ID))
        (MIDDLE_MAZE_DISTANCE cfg)
     && lt (to_double (distance s SENSOR_SIDE_RIGHT_ID))
           (MIDDLE_MAZE_DISTANCE cfg) = false ->
     gt (to_double (distance s SENSOR_SIDE_RIGHT_ID))
        (MIDDLE_MAZE_DISTANCE cfg)
     && lt (to_double (distance s SENSOR_SIDE_LEFT_ID))
           (MIDDLE_MAZE_DISTANCE cfg) = false ->
     get_side_sensors_error cfg s = pzero).
Proof.
  intros s; unfold get_side_sensors_error; repeat split.
  - intros Hl Hr; rewrite Hl, Hr; reflexivity.
  - unfold gt; intros Hr Hl.
    rewrite (lt_asym _ _ Hl), Hr, Hl; reflexivity.
  - intros H1 H2; rewrite H1, H2; reflexivity.
Qed.

End WallDetector.

Lemma wall_detection_strict_witness :
  Ieee.is_nan (Detection.distance left_reading_lost
                 Detection.SENSOR_SIDE_LEFT_ID) = true /\
  Detection.left_wall_detection classic_setup left_reading_lost = false.
Proof.
  split; [reflexivity | ].
  apply (proj1 (proj2 (proj2 (proj2
           (wall_detection_strict classic_setup left_reading_lost))))).
  right; reflexivity.
Defined.

Lemma side_sensors_error_nan_witness :
  Ieee.is_nan (Detection.distance left_reading_lost
                 Detection.SENSOR_SIDE_LEFT_ID) = true /\
  Detection.get_side_sensors_error classic_setup left_reading_lost
  = Ieee.pzero.
Proof.
  split; [reflexivity | ].
  apply (side_sensors_error_nan classic_setup left_reading_lost).
  left; reflexivity.
Defined.

(** C3 fails as stated.  Between two detected side walls the error is about
    -1.4 cm, not 0; with the right wall alone detected, read at 10 cm, it is
    0, not that distance minus MIDDLE_MAZE_DISTANCE. *)
Lemma side_sensors_error_ignores_walls :
  (Detection.left_wall_detection classic_setup between_two_walls = true /\
   Detection.right_wall_detection classic_setup between_two_walls = true /\
   Detection.get_side_sensors_error classic_setup between_two_walls
   = S754_finite true 15032385 (-30)) /\
  (Detection.left_wall_detection classic_setup right_wall_only = false /\
   Detection.right_wall_detection classic_setup right_wall_only = true /\
   Detection.get_side_sensors_error classic_setup right_wall_only
   = Ieee.pzero /\
   Ieee.to_float
     (Ieee.d_sub
        (Ieee.to_double
           (Detection.distance right_wall_only
              Detection.SENSOR_SIDE_RIGHT_ID))
        (MIDDLE_MAZE_DISTANCE classic_setup))
   = S754_finite false 8589935 (-29)).
Proof.
  vm_compute; repeat split.
Qed.

Lemma side_sensors_error_cases_witness :
  Ieee.gt
    (Ieee.to_double
       (Detection.distance between_two_walls Detection.SENSOR_SIDE_LEFT_ID))
    (MIDDLE_MAZE_DISTANCE classic_setup) = true /\
  Ieee.lt
    (Ieee.to_double
       (Detection.distance between_two_walls Detection.SENSOR_SIDE_RIGHT_ID))
    (MIDDLE_MAZE_DISTANCE classic_setup) = true /\
  Detection.get_side_sensors_error classic_setup between_two_walls
  = Ieee.to_float
      (Ieee.d_sub
         (Ieee.to_double
            (Detection.distance between_two_walls
               Detection.SENSOR_SIDE_RIGHT_ID))
         (MIDDLE_MAZE_DISTANCE classic_setup)).
Proof.
  split; [reflexivity | split; [reflexivity | ]].
  apply (proj1 (side_sensors_error_cases classic_setup between_two_walls));
    reflexivity.
Defined.

(** ** The distance estimator *)

Section DistanceEstimator.
Import Ieee Detection.
Local Open Scope nat_scope.

Variable cfg : setup.
Context {libm : Libm}.

(** The loop writes each cell of [distance] once, from the readings and the
    offset found at the same index. *)
Lemma distance_after_update :
  forall (s : state) (i : nat),
    i < NUM_SENSOR ->
    distance (update_distance_readings cfg s) i
    = if is_side_sensor i
      then f_sub (estimate cfg s i) (calibration_factor s i)
      else estimate cfg s i.
Proof.
  intros s i Hi; unfold NUM_SENSOR in Hi.
  destruct i as [ | [ | [ | [ | i]]]]; try lia; reflexivity.
Qed.

(** C1.  After [update_distance_readings] the distance of every sensor is
    a / ln (raw_on - raw_off) - b for its calibration pair, less its current
    drift offset if it is one of the two side sensors and only then; the raw
    readings and the drift offsets are left as they were. *)
Theorem update_distance_readings_formula :
  forall (s : state) (i : nat),
    i < NUM_SENSOR ->
    distance (update_distance_readings cfg s) i
    = (if is_side_sensor i
       then f_sub (estimate cfg s i) (calibration_factor s i)
       else estimate cfg s i)
    /\ calibration_factor (update_distance_readings cfg s) i
       = calibration_factor s i
    /\ sensors_on (update_distance_readings cfg s) i = sensors_on s i
    /\ sensors_off (update_distance_readings cfg s) i = sensors_off s i.
Proof.
  intros s i Hi; split; [apply distance_after_update; exact Hi | ].
  repeat split.
Qed.

Lemma estimate_nan :
  forall s i,
    (- 2 ^ 24 < sensors_on s i - sensors_off s i < 0)%Z ->
    estimate cfg s i = S754_nan.
Proof.
  intros s i Hraw; unfold estimate.
  rewrite (log_negative _ (int_to_float_negative _ Hraw)).
  destruct (to_double (sensors_calibration_a cfg i)); reflexivity.
Qed.

Lemma estimate_equal_readings :
  forall s i,
    sensors_on s i = sensors_off s i ->
    finite_nonzero (sensors_calibration_a cfg i) = true ->
    finite_nonzero (sensors_calibration_b cfg i) = true ->
    estimate cfg s i = f_opp (sensors_calibration_b cfg i).
Proof.
  intros s i Hraw Ha Hb; unfold estimate.
  rewrite Hraw, Z.sub_diag.
  change (to_double (int_to_float 0)) with (S754_zero false).
  rewrite log_zero.
  destruct (sensors_calibration_a cfg i) as [ | | | sa ma ea];
    try discriminate Ha.
  destruct (sensors_calibration_b cfg i) as [ | | | sb mb eb];
    try discriminate Hb.
  cbn [finite_nonzero] in Ha, Hb.
  destruct (to_double_finite sa ma ea Ha) as (ka & _ & ->).
  destruct (to_double_finite sb mb eb Hb) as (kb & _ & ->).
  cbn [d_div SFdiv d_sub SFsub f_opp SFopp to_float].
  apply binary_round_unpad; exact Hb.
Qed.

(** C2, as the code has it.  When a sensor reads less with its emitter on
    than off, its distance is NaN.  When both readings are equal the
    logarithm is minus infinity, the quotient is a zero, and for finite
    non-zero coefficients the distance is -b, a finite number, less the
    drift offset for a side sensor. *)
Theorem update_distance_readings_degenerate :
  forall (s : state) (i : nat),
    i < NUM_SENSOR ->
    (0 <= sensors_off s i < 2 ^ 16)%Z ->
    (0 <= sensors_on s i < 2 ^ 16)%Z ->
    ((sensors_on s i < sensors_off s i)%Z ->
     distance (update_distance_readings cfg s) i = S754_nan) /\
    (sensors_on s i = sensors_off s i ->
     finite_nonzero (sensors_calibration_a cfg i) = true ->
     finite_nonzero (sensors_calibration_b cfg i) = true ->
     distance (update_distance_readings cfg s) i
     = if is_side_sensor i
       then f_sub (f_opp (sensors_calibration_b cfg i))
                  (calibration_factor s i)
       else f_opp (sensors_calibration_b cfg i)).
Proof.
  intros s i Hi Hoff Hon.
  rewrite (distance_after_update s i Hi); split.
  - intros Hlt; rewrite estimate_nan by lia.
    destruct (is_side_sensor i); reflexivity.
  - intros Heq Ha Hb; rewrite (estimate_equal_readings s i Heq Ha Hb).
    reflexivity.
Qed.

End DistanceEstimator.

Lemma update_distance_readings_formula_witness :
  (Detection.SENSOR_FRONT_LEFT_ID < Detection.NUM_SENSOR)%nat /\
  Detection.distance
    (Detection.update_distance_readings classic_setup darker_when_lit)
    Detection.SENSOR_FRONT_LEFT_ID
  = estimate classic_setup darker_when_lit Detection.SENSOR_FRONT_LEFT_ID.
Proof.
  split; [unfold Detection.SENSOR_FRONT_LEFT_ID, Detection.NUM_SENSOR; lia | ].
  apply (proj1 (update_distance_readings_formula classic_setup
                  darker_when_lit Detection.SENSOR_FRONT_LEFT_ID
                  ltac:(unfold Detection.SENSOR_FRONT_LEFT_ID,
                          Detection.NUM_SENSOR; lia))).
Defined.

(** C2 fails as stated.  With equal readings, so that raw_on - raw_off = 0,
    the front-left distance is -0.05, the negated coefficient b: a finite
    number. *)
Lemma distance_finite_on_equal_readings :
  (Detection.sensors_on equal_readings Detection.SENSOR_FRONT_LEFT_ID
   - Detection.sensors_off equal_readings Detection.SENSOR_FRONT_LEFT_ID
   <= 0) /\
  Detection.distance
    (Detection.update_distance_readings classic_setup equal_readings)
    Detection.SENSOR_FRONT_LEFT_ID
  = S754_finite true 13421773 (-28) /\
  Ieee.is_finite
    (Detection.distance
       (Detection.update_distance_readings classic_setup equal_readings)
       Detection.SENSOR_FRONT_LEFT_ID) = true.
Proof.
  vm_compute; repeat split; discriminate.
Qed.

Lemma update_distance_readings_degenerate_witness :
  ((Detection.SENSOR_FRONT_LEFT_ID < Detection.NUM_SENSOR)%nat /\
   0 <= Detection.sensors_off darker_when_lit Detection.SENSOR_FRONT_LEFT_ID
     < 2 ^ 16 /\
   0 <= Detection.sensors_on darker_when_lit Detection.SENSOR_FRONT_LEFT_ID
     < 2 ^ 16 /\
   Detection.sensors_on darker_when_lit Detection.SENSOR_FRONT_LEFT_ID
   < Detection.sensors_off darker_when_lit Detection.SENSOR_FRONT_LEFT_ID /\
   Detection.distance
     (Detection.update_distance_readings classic_setup darker_when_lit)
     Detection.SENSOR_FRONT_LEFT_ID
   = S754_nan) /\
  (Detection.sensors_on equal_readings Detection.SENSOR_FRONT_LEFT_ID
   = Detection.sensors_off equal_readings Detection.SENSOR_FRONT_LEFT_ID /\
   finite_nonzero
     (Detection.sensors_calibration_a classic_setup
        Detection.SENSOR_FRONT_LEFT_ID) = true /\
   finite_nonzero
     (Detection.sensors_calibration_b classic_setup
        Detection.SENSOR_FRONT_LEFT_ID) = true /\
   Detection.distance
     (Detection.update_distance_readings classic_setup equal_readings)
     Detection.SENSOR_FRONT_LEFT_ID
   = Ieee.f_opp
       (Detection.sensors_calibration_b classic_setup
          Detection.SENSOR_FRONT_LEFT_ID)).
Proof.
  assert (Hi : (Detection.SENSOR_FRONT_LEFT_ID < Detection.NUM_SENSOR)%nat)
    by (unfold Detection.SENSOR_FRONT_LEFT_ID, Detection.NUM_SENSOR; lia).
  assert (Hrange : forall s : Detection.state,
            s = darker_when_lit \/ s = equal_readings ->
            0 <= Detection.sensors_off s Detection.SENSOR_FRONT_LEFT_ID
              < 2 ^ 16
            /\ 0 <= Detection.sensors_on s Detection.SENSOR_FRONT_LEFT_ID
                 < 2 ^ 16)
    by (intros s [-> | ->]; cbn; lia).
  destruct (Hrange darker_when_lit (or_introl eq_refl)) as (Hoff & Hon).
  destruct (Hrange equal_readings (or_intror eq_refl)) as (Hoff' & Hon').
  assert (Hlt :
    Detection.sensors_on darker_when_lit Detection.SENSOR_FRONT_LEFT_ID
    < Detection.sensors_off darker_when_lit Detection.SENSOR_FRONT_LEFT_ID)
    by (cbn; lia).
  assert (Ha :
    finite_nonzero
      (Detection.sensors_calibration_a classic_setup
         Detection.SENSOR_FRONT_LEFT_ID) = true) by (vm_compute; reflexivity).
  assert (Hb :
    finite_nonzero
      (Detection.sensors_calibration_b classic_setup
         Detection.SENSOR_FRONT_LEFT_ID) = true) by (vm_compute; reflexivity).
  split.
  - split; [exact Hi | split; [exact Hoff | split; [exact Hon | ]]].
    split; [exact Hlt | ].
    exact (proj1 (update_distance_readings_degenerate classic_setup
                    darker_when_lit Detection.SENSOR_FRONT_LEFT_ID
                    Hi Hoff Hon) Hlt).
  - split; [reflexivity | split; [exact Ha | split; [exact Hb | ]]].
    exact (proj2 (update_distance_readings_degenerate classic_setup
                    equal_readings Detection.SENSOR_FRONT_LEFT_ID
                    Hi Hoff' Hon') eq_refl Ha Hb).
Defined.

(** ** Entering a cell *)

Section EnteredNextCell.
Import Ieee Move.

Variable cfg : setup.

(** C5, as the code has it.  [entered_next_cell] records the odometry
    position as the new cell start, resets the cell shift to 0 and toggles
    the LED.  With a front wall detected it adds to the cell start the
    difference between the front wall distance and CELL_DIMENSION, times
    MICROMETERS_PER_METER, truncated toward zero to whole micrometers; the
    correction is zero when the front wall distance equals CELL_DIMENSION. *)
Theorem entered_next_cell_marks_start :
  forall (encoder : Z) (det : Detection.state) (s : state),
    - 2 ^ 31 <= encoder < 2 ^ 31 ->
    (Detection.front_wall_detection cfg det = false ->
     entered_next_cell cfg encoder det s
     = Some {| max_linear_speed := max_linear_speed s;
               cell_shift := pzero;
               current_cell_start_micrometers := encoder;
               led_left := negb (led_left s) |}) /\
    (Detection.front_wall_detection cfg det = true ->
     forall front_wall_correction,
       to_int32
         (d_mul
            (d_sub (to_double (Detection.get_front_wall_distance det))
                   (CELL_DIMENSION cfg))
            (int_to_double MICROMETERS_PER_METER))
       = Some front_wall_correction ->
       entered_next_cell cfg encoder det s
       = Some {| max_linear_speed := max_linear_speed s;
                 cell_shift := pzero;
                 current_cell_start_micrometers :=
                   wrap_int32 (encoder + front_wall_correction);
                 led_left := negb (led_left s) |}) /\
    (Detection.front_wall_detection cfg det = true ->
     is_finite (CELL_DIMENSION cfg) = true ->
     eq (to_double (Detection.get_front_wall_distance det))
        (CELL_DIMENSION cfg) = true ->
     entered_next_cell cfg encoder det s
     = Some {| max_linear_speed := max_linear_speed s;
               cell_shift := pzero;
               current_cell_start_micrometers := encoder;
               led_left := negb (led_left s) |}).
Proof.
  intros encoder det s Henc; unfold entered_next_cell.
  split; [ | split].
  - intros ->; reflexivity.
  - intros -> c ->; reflexivity.
  - intros -> Hfin Heq.
    destruct (sub_eq_zero prec64 emax64 _ _ Heq Hfin) as (z & Hz).
    unfold d_sub; rewrite Hz.
    change (to_int32
              (d_mul (S754_zero z) (int_to_double MICROMETERS_PER_METER)))
      with (Some 0).
    cbn [set_current_cell_start_micrometers current_cell_start_micrometers
         set_cell_shift led_left_toggle max_linear_speed cell_shift led_left].
    rewrite Z.add_0_r.
    replace (wrap_int32 encoder) with encoder; [reflexivity | ].
    unfold wrap_int32; rewrite Z.mod_small; lia.
Qed.

End EnteredNextCell.

Lemma entered_next_cell_marks_start_witness :
  - 2 ^ 31 <= 1000 < 2 ^ 31 /\
  (Detection.front_wall_detection classic_setup left_reading_lost = false /\
   option_map Move.current_cell_start_micrometers
     (Move.entered_next_cell classic_setup 1000 left_reading_lost mid_cell)
   = Some 1000) /\
  (Detection.front_wall_detection dyadic_setup
     (front_wall_at (float_literal 1875 4)) = true /\
   Ieee.is_finite (CELL_DIMENSION dyadic_setup) = true /\
   Ieee.eq
     (Ieee.to_double
        (Detection.get_front_wall_distance
           (front_wall_at (float_literal 1875 4))))
     (CELL_DIMENSION dyadic_setup) = true /\
   option_map Move.current_cell_start_micrometers
     (Move.entered_next_cell dyadic_setup 1000
        (front_wall_at (float_literal 1875 4)) mid_cell)
   = Some 1000).
Proof.
  assert (Henc : - 2 ^ 31 <= 1000 < 2 ^ 31) by lia.
  assert (Hwall :
    Detection.front_wall_detection classic_setup left_reading_lost = false)
    by reflexivity.
  assert (Hfront :
    Detection.front_wall_detection dyadic_setup
      (front_wall_at (float_literal 1875 4)) = true)
    by (vm_compute; reflexivity).
  assert (Hfin : Ieee.is_finite (CELL_DIMENSION dyadic_setup) = true)
    by (vm_compute; reflexivity).
  assert (Heq :
    Ieee.eq
      (Ieee.to_double
         (Detection.get_front_wall_distance
            (front_wall_at (float_literal 1875 4))))
      (CELL_DIMENSION dyadic_setup) = true)
    by (vm_compute; reflexivity).
  split; [exact Henc | split].
  - split; [exact Hwall | ].
    rewrite (proj1 (entered_next_cell_marks_start classic_setup 1000
                      left_reading_lost mid_cell Henc) Hwall).
    reflexivity.
  - split; [exact Hfront | split; [exact Hfin | split; [exact Heq | ]]].
    rewrite (proj2 (proj2 (entered_next_cell_marks_start dyadic_setup 1000
                             (front_wall_at (float_literal 1875 4))
                             mid_cell Henc)) Hfront Hfin Heq).
    reflexivity.
Defined.

(** C5 fails as stated.  With the front wall detected at the reading nearest
    to CELL_DIMENSION + 0.01, the cell start is moved by 9999 micrometers,
    one less than 0.01 x MICROMETERS_PER_METER: the single precision reading
    lies just below 0.19 and the conversion truncates. *)
Lemma entered_next_cell_one_cm :
  Detection.front_wall_detection classic_setup
    (front_wall_at cell_plus_one_cm) = true /\
  Detection.get_front_wall_distance (front_wall_at cell_plus_one_cm)
  = cell_plus_one_cm /\
  Ieee.to_int32
    (Ieee.d_mul (Ieee.literal 1 2) (Ieee.int_to_double MICROMETERS_PER_METER))
  = Some 10000 /\
  option_map Move.current_cell_start_micrometers
    (Move.entered_next_cell classic_setup 0
       (front_wall_at cell_plus_one_cm) mid_cell)
  = Some 9999.
Proof.
  vm_compute; repeat split.
Qed.

(** ** The drift calibrator *)

Section DriftCalibrator.
Import Ieee Detection.
Local Open Scope nat_scope.

Variable cfg : setup.

Lemma calibration_loop :
  forall readings n from acc,
    for_loop n from (calibration_body readings) acc
    = (fold_left f_add
         (map (fun k => readings k SENSOR_SIDE_LEFT_ID) (seq from n))
         (fst acc),
       fold_left f_add
         (map (fun k => readings k SENSOR_SIDE_RIGHT_ID) (seq from n))
         (snd acc)).
Proof.
  intros readings n; induction n as [ | n IH]; intros from [l r].
  - reflexivity.
  - cbn [for_loop seq map fold_left]; rewrite IH; reflexivity.
Qed.

Lemma side_sensors_calibration_factor :
  forall readings s i,
    calibration_factor (side_sensors_calibration cfg readings s) i
    = if is_side_sensor i
      then to_float (d_add (to_double (calibration_factor s i))
                           (correction cfg readings i))
      else calibration_factor s i.
Proof.
  intros readings s i; unfold side_sensors_calibration.
  rewrite calibration_loop.
  cbn [fst snd calibration_factor set_calibration_factor].
  unfold calibration_update, correction, window_mean, float_sum, window.
  rewrite !length_map, !length_seq.
  destruct i as [ | [ | i]]; reflexivity.
Qed.

(** Adding a zero to a [float] offset leaves it as it is, up to the sign of
    a zero offset. *)
Lemma add_zero_offset :
  forall x z,
    valid_binary prec32 emax32 x = true ->
    to_float (d_add (to_double x) (S754_zero z)) = x
    \/ exists sx sy,
         x = S754_zero sx
         /\ to_float (d_add (to_double x) (S754_zero z)) = S754_zero sy.
Proof.
  intros [sx | sx | | sx mx ex] z Hx.
  - right; exists sx; destruct sx, z; eexists; split; reflexivity.
  - left; reflexivity.
  - left; reflexivity.
  - left; cbn [valid_binary] in Hx.
    destruct (to_double_finite sx mx ex Hx) as (k & _ & ->).
    cbn [d_add SFadd to_float]; apply binary_round_unpad; exact Hx.
Qed.

(** C6, as the code has it.  [side_sensors_calibration] takes 20 readings of
    each side sensor and adds to the drift offset of each side the [float]
    mean of its readings less MIDDLE_MAZE_DISTANCE; the other offsets and
    the distances are left alone, and a second invocation adds to the
    result of the first.  When the computed mean of a side equals
    MIDDLE_MAZE_DISTANCE the offset of that side keeps its value. *)
Theorem side_sensors_calibration_adds :
  forall (readings : nat -> array spec_float) (s : state),
    (forall i, length (window readings i) = 20) /\
    (forall i,
       is_side_sensor i = true ->
       calibration_factor (side_sensors_calibration cfg readings s) i
       = to_float (d_add (to_double (calibration_factor s i))
                         (correction cfg readings i))) /\
    (forall i,
       is_side_sensor i = false ->
       calibration_factor (side_sensors_calibration cfg readings s) i
       = calibration_factor s i) /\
    (forall again i,
       is_side_sensor i = true ->
       calibration_factor
         (side_sensors_calibration cfg again
            (side_sensors_calibration cfg readings s)) i
       = to_float
           (d_add
              (to_double
                 (to_float (d_add (to_double (calibration_factor s i))
                                  (correction cfg readings i))))
              (correction cfg again i))) /\
    (forall i,
       is_side_sensor i = true ->
       valid_binary prec32 emax32 (calibration_factor s i) = true ->
       is_finite (MIDDLE_MAZE_DISTANCE cfg) = true ->
       eq (to_double (window_mean readings i)) (MIDDLE_MAZE_DISTANCE cfg)
       = true ->
       calibration_factor (side_sensors_calibration cfg readings s) i
       = calibration_factor s i
       \/ exists sx sy,
            calibration_factor s i = S754_zero sx
            /\ calibration_factor (side_sensors_calibration cfg readings s) i
               = S754_zero sy).
Proof.
  intros readings s.
  split; [intros i; reflexivity | ].
  split; [intros i Hi; rewrite side_sensors_calibration_factor, Hi;
          reflexivity | ].
  split; [intros i Hi; rewrite side_sensors_calibration_factor, Hi;
          reflexivity | ].
  split.
  - intros again i Hi.
    rewrite !side_sensors_calibration_factor, Hi; reflexivity.
  - intros i Hi Hv Hfin Heq.
    rewrite side_sensors_calibration_factor, Hi.
    destruct (sub_eq_zero prec64 emax64 _ _ Heq Hfin) as (z & Hz).
    unfold correction, d_sub; rewrite Hz.
    apply add_zero_offset; exact Hv.
Qed.

End DriftCalibrator.

Lemma side_sensors_calibration_adds_witness :
  is_side_sensor Detection.SENSOR_SIDE_LEFT_ID = true /\
  valid_binary Ieee.prec32 Ieee.emax32
    (Detection.calibration_factor Detection.initial
       Detection.SENSOR_SIDE_LEFT_ID) = true /\
  Ieee.is_finite (MIDDLE_MAZE_DISTANCE dyadic_setup) = true /\
  Ieee.eq
    (Ieee.to_double
       (window_mean (steady_readings (float_literal 859375 7))
          Detection.SENSOR_SIDE_LEFT_ID))
    (MIDDLE_MAZE_DISTANCE dyadic_setup) = true /\
  (Detection.calibration_factor
     (Detection.side_sensors_calibration dyadic_setup
        (steady_readings (float_literal 859375 7)) Detection.initial)
     Detection.SENSOR_SIDE_LEFT_ID
   = Detection.calibration_factor Detection.initial
       Detection.SENSOR_SIDE_LEFT_ID
   \/ exists sx sy,
        Detection.calibration_factor Detection.initial
          Detection.SENSOR_SIDE_LEFT_ID = S754_zero sx
        /\ Detection.calibration_factor
             (Detection.side_sensors_calibration dyadic_setup
                (steady_readings (float_literal 859375 7)) Detection.initial)
             Detection.SENSOR_SIDE_LEFT_ID
           = S754_zero sy).
Proof.
  assert (Hmid : Ieee.is_finite (MIDDLE_MAZE_DISTANCE dyadic_setup) = true)
    by (vm_compute; reflexivity).
  assert (Hmean :
    Ieee.eq
      (Ieee.to_double
         (window_mean (steady_readings (float_literal 859375 7))
            Detection.SENSOR_SIDE_LEFT_ID))
      (MIDDLE_MAZE_DISTANCE dyadic_setup) = true)
    by (vm_compute; reflexivity).
  split; [reflexivity | split; [reflexivity | split; [exact Hmid | ]]].
  split; [exact Hmean | ].
  exact (proj2 (proj2 (proj2 (proj2
           (side_sensors_calibration_adds dyadic_setup
              (steady_readings (float_literal 859375 7))
              Detection.initial))))
           Detection.SENSOR_SIDE_LEFT_ID eq_refl eq_refl Hmid Hmean).
Defined.

(** C6 fails as stated.  In a corridor whose middle is at the [float] nearest
    to 0.1 m, twenty readings all equal to MIDDLE_MAZE_DISTANCE have the
    [float] mean one unit in the last place above it, and both drift offsets
    move from 0 to 2^-27.  In the classic maze no [float] equals
    MIDDLE_MAZE_DISTANCE; twenty readings at the [float] nearest to it move
    the offset from 0 to about -1.1e-9. *)
Lemma side_sensors_calibration_steady_window :
  (forall k i,
     Ieee.eq (Ieee.to_double (steady_readings (float_literal 1 1) k i))
             (MIDDLE_MAZE_DISTANCE tenth_setup) = true) /\
  Detection.calibration_factor Detection.initial
    Detection.SENSOR_SIDE_LEFT_ID = Ieee.pzero /\
  Detection.calibration_factor Detection.initial
    Detection.SENSOR_SIDE_RIGHT_ID = Ieee.pzero /\
  Detection.calibration_factor
    (Detection.side_sensors_calibration tenth_setup
       (steady_readings (float_literal 1 1)) Detection.initial)
    Detection.SENSOR_SIDE_LEFT_ID
  = S754_finite false 8388608 (-50) /\
  Detection.calibration_factor
    (Detection.side_sensors_calibration tenth_setup
       (steady_readings (float_literal 1 1)) Detection.initial)
    Detection.SENSOR_SIDE_RIGHT_ID
  = S754_finite false 8388608 (-50) /\
  Detection.calibration_factor
    (Detection.side_sensors_calibration classic_setup
       (steady_readings
          (Ieee.to_float (MIDDLE_MAZE_DISTANCE classic_setup)))
       Detection.initial)
    Detection.SENSOR_SIDE_LEFT_ID
  = S754_finite true 10200547 (-53).
Proof.
  split; [intros k i; vm_compute; reflexivity | ].
  vm_compute; repeat split.
Qed.

(** ** The kinematic primitives *)

Section Kinematics.
Import Ieee Move.

(** C7.  [required_micrometers_to_speed] is
    (v^2 - v_target^2) / (2 a) x MICROMETERS_PER_METER computed in single
    precision and converted to [uint32_t], with a the negated linear
    deceleration when v_target > v and the linear acceleration otherwise.
    It returns 0 when v equals the target speed, v^2 is finite in single
    precision and the acceleration is positive; and when v equals the target
    speed it returns no value other than 0, whatever the accelerations. *)
Theorem required_micrometers_to_speed_formula :
  forall (c : control) (speed : spec_float),
    (gt (target_linear_speed c) speed = true ->
     required_micrometers_to_speed c speed
     = to_uint32
         (kinematic_micrometers speed (target_linear_speed c)
            (f_opp (linear_deceleration c)))) /\
    (gt (target_linear_speed c) speed = false ->
     required_micrometers_to_speed c speed
     = to_uint32
         (kinematic_micrometers speed (target_linear_speed c)
            (linear_acceleration c))) /\
    (eq speed (target_linear_speed c) = true ->
     is_finite (f_mul speed speed) = true ->
     valid_binary prec32 emax32 (linear_acceleration c) = true ->
     lt pzero (linear_acceleration c) = true ->
     required_micrometers_to_speed c speed = Some 0) /\
    (eq speed (target_linear_speed c) = true ->
     forall q, required_micrometers_to_speed c speed = Some q -> q = 0).
Proof.
  intros c speed; unfold required_micrometers_to_speed,
    get_target_linear_speed, get_linear_acceleration,
    get_linear_deceleration, kinematic_micrometers.
  split; [intros ->; reflexivity | split; [intros ->; reflexivity | ]].
  split.
  - intros Heq Hfin Hv Hpos.
    rewrite (eq_not_gt _ _ Heq), <- (mul_self_eq _ _ Heq).
    destruct (SFsub_diag prec32 emax32 _ Hfin) as (z & Hz).
    unfold f_sub; rewrite Hz.
    destruct (linear_acceleration c) as [sa | sa | | sa ma ea];
      try destruct sa; try discriminate Hpos.
    + destruct z; reflexivity.
    + cbn [valid_binary] in Hv.
      destruct (mul_two_positive ma ea Hv) as [-> | (m' & e' & ->)];
        destruct z; reflexivity.
  - intros Heq q.
    rewrite (eq_not_gt _ _ Heq), <- (mul_self_eq _ _ Heq).
    assert (Hsub :
      (exists z, f_sub (f_mul speed speed) (f_mul speed speed)
                 = S754_zero z)
      \/ f_sub (f_mul speed speed) (f_mul speed speed) = S754_nan).
    { destruct (is_finite (f_mul speed speed)) eqn:Hfin.
      - left; apply SFsub_diag; exact Hfin.
      - right; destruct (f_mul speed speed) as [s | s | | s m e];
          try discriminate Hfin; [destruct s | ]; reflexivity. }
    destruct Hsub as [(z & ->) | ->].
    + destruct (f_mul (int_to_float 2) (linear_acceleration c))
        as [sy | sy | | sy my ey]; destruct z; try destruct sy;
        vm_compute; congruence.
    + vm_compute; congruence.
Qed.
End Kinematics.

Lemma required_micrometers_to_speed_formula_witness :
  Ieee.eq (float_literal 8 1)
          (Move.target_linear_speed (cruise (float_literal 8 1))) = true /\
  Ieee.is_finite (Ieee.f_mul (float_literal 8 1) (float_literal 8 1)) = true /\
  valid_binary Ieee.prec32 Ieee.emax32
    (Move.linear_acceleration (cruise (float_literal 8 1))) = true /\
  Ieee.lt Ieee.pzero
    (Move.linear_acceleration (cruise (float_literal 8 1))) = true /\
  Move.required_micrometers_to_speed (cruise (float_literal 8 1))
    (float_literal 8 1) = Some 0.
Proof.
  assert (Heq :
    Ieee.eq (float_literal 8 1)
            (Move.target_linear_speed (cruise (float_literal 8 1))) = true)
    by (vm_compute; reflexivity).
  assert (Hfin :
    Ieee.is_finite (Ieee.f_mul (float_literal 8 1) (float_literal 8 1))
    = true) by (vm_compute; reflexivity).
  assert (Hv :
    valid_binary Ieee.prec32 Ieee.emax32
      (Move.linear_acceleration (cruise (float_literal 8 1))) = true)
    by (vm_compute; reflexivity).
  assert (Hpos :
    Ieee.lt Ieee.pzero
      (Move.linear_acceleration (cruise (float_literal 8 1))) = true)
    by (vm_compute; reflexivity).
  split; [exact Heq | split; [exact Hfin | split; [exact Hv | ]]].
  split; [exact Hpos | ].
  exact (proj1 (proj2 (proj2 (required_micrometers_to_speed_formula
                                (cruise (float_literal 8 1))
                                (float_literal 8 1))))
           Heq Hfin Hv Hpos).
Defined.

(** ** Turning in place *)

Section Turns.
Import Ieee Move.

Lemma elapsed_after :
  forall start e,
    0 <= start < 2 ^ 32 -> 0 <= e < 2 ^ 32 ->
    elapsed start (wrap_uint32 (start + e)) = e.
Proof.
  intros start e Hs He; unfold elapsed, wrap_uint32.
  rewrite Zminus_mod_idemp_l.
  replace (start + e - start) with e by lia.
  apply Z.mod_small; lia.
Qed.

Lemma wrap_succ :
  forall start e,
    wrap_uint32 (wrap_uint32 (start + e) + 1) = wrap_uint32 (start + (e + 1)).
Proof.
  intros start e; unfold wrap_uint32.
  rewrite Zplus_mod_idemp_l; f_equal; lia.
Qed.

(** A read that finds [e] elapsed ticks leaves a turn that stands at [e]
    where it is. *)
Lemma turn_poll_same :
  forall w c start e,
    0 <= start < 2 ^ 32 -> 0 <= e < 2 ^ 32 ->
    turn_poll (wrap_uint32 (start + e)) (turn_at w c start e)
    = turn_at w c start e.
Proof.
  intros w c start e Hs He; unfold turn_poll, turn_at, turn_phase.
  cbn [pc starting_time ctl]; rewrite elapsed_after by assumption.
  destruct (Z.leb_spec e 88); [reflexivity | ].
  destruct (Z.leb_spec e 176); reflexivity.
Qed.

(** A read that finds one more elapsed tick takes it to [e + 1]. *)
Lemma turn_poll_next :
  forall w c start e,
    0 <= start < 2 ^ 32 -> 0 <= e -> e + 1 < 2 ^ 32 ->
    turn_poll (wrap_uint32 (start + (e + 1))) (turn_at w c start e)
    = turn_at w c start (e + 1).
Proof.
  intros w c start e Hs He He'; unfold turn_poll, turn_at, turn_phase.
  cbn [pc starting_time ctl]; rewrite elapsed_after by lia.
  destruct (Z.leb_spec e 88), (Z.leb_spec (e + 1) 88); try lia;
    try reflexivity;
    destruct (Z.leb_spec e 176), (Z.leb_spec (e + 1) 176); try lia;
    reflexivity.
Qed.

Lemma turn_polls :
  forall w c start ticked e,
    0 <= start < 2 ^ 32 -> 0 <= e -> e + ticks ticked < 2 ^ 32 ->
    fold_left (fun t p => turn_poll p t)
      (clock_reads (wrap_uint32 (start + e)) ticked) (turn_at w c start e)
    = turn_at w c start (e + ticks ticked).
Proof.
  intros w c start ticked; induction ticked as [ | b rest IH];
    intros e Hs He Hn.
  - unfold ticks; cbn; rewrite Z.add_0_r; reflexivity.
  - assert (Hrest : 0 <= ticks rest) by (unfold ticks; lia).
    destruct b; cbn [clock_reads fold_left].
    + assert (Ht : ticks (true :: rest) = 1 + ticks rest).
      { unfold ticks; cbn [count_occ].
        destruct (bool_dec true true) as [_ | H]; [lia | contradiction H].
        reflexivity. }
      rewrite Ht in Hn |- *.
      rewrite wrap_succ, turn_poll_next, IH by lia.
      f_equal; lia.
    + assert (Ht : ticks (false :: rest) = ticks rest).
      { unfold ticks; cbn [count_occ].
        destruct (bool_dec false true) as [H | _]; [discriminate H | ].
        reflexivity. }
      rewrite Ht in Hn |- *.
      rewrite turn_poll_same, IH by lia; reflexivity.
Qed.

Variable cfg : setup.

(** C4, as the code has it.  [turn_left] and [turn_right] command -8 pi and
    +8 pi while the elapsed tick count is at most 88 and 0 afterwards, and
    return on the first clock read that finds more than 176 elapsed ticks:
    the turning window spans the 89 tick counts 0..88, the settling window
    the 88 tick counts 89..176.  The count is the wrapped difference of two
    clock reads, so the clock value at the start does not matter. *)
Theorem turn_timing :
  forall (c : control) (start : Z) (ticked : list bool),
    0 <= start < 2 ^ 32 ->
    ticks ticked < 2 ^ 32 ->
    (target_angular_speed
       (ctl (turn_left cfg start (clock_reads start ticked) c))
     = if ticks ticked <=? 88
       then to_float (d_mul (int_to_double (-8)) (PI cfg))
       else int_to_float 0) /\
    (target_angular_speed
       (ctl (turn_right cfg start (clock_reads start ticked) c))
     = if ticks ticked <=? 88
       then to_float (d_mul (int_to_double 8) (PI cfg))
       else int_to_float 0) /\
    (pc (turn_left cfg start (clock_reads start ticked) c)
     = if ticks ticked <=? 88 then Turning
       else if ticks ticked <=? 176 then Settling else Returned) /\
    (pc (turn_right cfg start (clock_reads start ticked) c)
     = if ticks ticked <=? 88 then Turning
       else if ticks ticked <=? 176 then Settling else Returned).
Proof.
  intros c start ticked Hs Hn.
  assert (Hrun :
    forall w,
      fold_left (fun t p => turn_poll p t) (clock_reads start ticked)
        (turn_enter w start c)
      = turn_at w c start (ticks ticked)).
  { intros w.
    replace (clock_reads start ticked)
      with (clock_reads (wrap_uint32 (start + 0)) ticked)
      by (unfold wrap_uint32; rewrite Z.add_0_r, Z.mod_small by lia;
          reflexivity).
    change (turn_enter w start c) with (turn_at w c start 0).
    rewrite turn_polls by lia; reflexivity. }
  unfold turn_left, turn_right; rewrite !Hrun.
  unfold turn_at, turn_phase, turn_left_speed, turn_right_speed.
  cbn [pc ctl target_angular_speed set_target_angular_speed].
  repeat split.
Qed.

End Turns.

Lemma turn_timing_witness :
  0 <= 2 ^ 32 - 5 < 2 ^ 32 /\
  Move.ticks (repeat true 100) < 2 ^ 32 /\
  Move.target_angular_speed
    (Move.ctl
       (Move.turn_left classic_setup (2 ^ 32 - 5)
          (Move.clock_reads (2 ^ 32 - 5) (repeat true 100))
          (cruise Ieee.pzero)))
  = Ieee.pzero.
Proof.
  assert (Hs : 0 <= 2 ^ 32 - 5 < 2 ^ 32) by lia.
  assert (Hn : Move.ticks (repeat true 100) < 2 ^ 32)
    by (vm_compute; reflexivity).
  split; [exact Hs | split; [exact Hn | ]].
  rewrite (proj1 (turn_timing classic_setup (cruise Ieee.pzero)
                    (2 ^ 32 - 5) (repeat true 100) Hs Hn)).
  reflexivity.
Defined.

(** C4 fails as stated.  After 88 elapsed ticks [turn_left] still commands
    -8 pi, about -25.13 rad/s; after 176 elapsed ticks it is still waiting,
    and it returns at the 177th. *)
Lemma turn_left_overruns :
  Move.ticks (repeat true 88) = 88 /\
  Move.target_angular_speed
    (Move.ctl
       (Move.turn_left classic_setup 0
          (Move.clock_reads 0 (repeat true 88)) (cruise Ieee.pzero)))
  = S754_finite true 13176795 (-19) /\
  Move.pc
    (Move.turn_left classic_setup 0
       (Move.clock_reads 0 (repeat true 176)) (cruise Ieee.pzero))
  = Move.Settling /\
  Move.pc
    (Move.turn_left classic_setup 0
       (Move.clock_reads 0 (repeat true 177)) (cruise Ieee.pzero))
  = Move.Returned.
Proof.
  vm_compute; repeat split.
Qed.

(** ** The emitters and the cycle, continued *)

Section EmitterPins.
Import Detection.
Local Open Scope nat_scope.

Lemma testbit_GPIO8 : forall n, (0 <= n)%Z -> Z.testbit GPIO8 n = Z.eqb 8 n.
Proof. intros n Hn; apply (Z.pow2_bits_eqb 8 n); lia. Qed.

Lemma testbit_GPIO9 : forall n, (0 <= n)%Z -> Z.testbit GPIO9 n = Z.eqb 9 n.
Proof. intros n Hn; apply (Z.pow2_bits_eqb 9 n); lia. Qed.

(** Setting or clearing the two emitter pins leaves every other bit of a
    port as it is. *)
Lemma gpio_other_bits :
  forall port pins n,
    (pins = GPIO8 \/ pins = GPIO9) ->
    (0 <= n)%Z -> n <> 8%Z -> n <> 9%Z ->
    Z.testbit (gpio_set port pins) n = Z.testbit port n
    /\ Z.testbit (gpio_clear port pins) n = Z.testbit port n.
Proof.
  intros port pins n Hp Hn H8 H9; unfold gpio_set, gpio_clear.
  rewrite Z.lor_spec, Z.ldiff_spec.
  assert (Hbit : Z.testbit pins n = false).
  { destruct Hp as [-> | ->];
      [rewrite testbit_GPIO8 by exact Hn | rewrite testbit_GPIO9 by exact Hn];
      apply Z.eqb_neq; lia. }
  rewrite Hbit, orb_false_r, andb_true_r; split; reflexivity.
Qed.

Ltac gpio_pins :=
  rewrite ?testbit_set_same, ?testbit_set_same8, ?testbit_set_other98,
    ?testbit_set_other89, ?testbit_clear_same, ?testbit_clear_same8,
    ?testbit_clear_other98, ?testbit_clear_other89.

(** The emitter functions leave every bit of the two ports other than the
    emitter pins as it is. *)
Lemma set_emitter_other_bits :
  forall (e : nat) (s : state) (n : Z),
    (0 <= n)%Z -> n <> 8%Z -> n <> 9%Z ->
    Z.testbit (GPIOA (set_emitter_on e s)) n = Z.testbit (GPIOA s) n
    /\ Z.testbit (GPIOB (set_emitter_on e s)) n = Z.testbit (GPIOB s) n
    /\ Z.testbit (GPIOA (set_emitter_off e s)) n = Z.testbit (GPIOA s) n
    /\ Z.testbit (GPIOB (set_emitter_off e s)) n = Z.testbit (GPIOB s) n.
Proof.
  intros e s n Hn H8 H9.
  destruct e as [ | [ | [ | [ | e]]]];
    cbn -[Z.testbit gpio_set gpio_clear];
    repeat split; try reflexivity;
    apply gpio_other_bits; auto.
Qed.

(** X1.  [set_emitter_on] and [set_emitter_off] change the pin of their
    emitter and nothing else: the other three emitters and every other bit
    of the two ports keep their level, an emitter switched on and then off
    is off, and an identifier that is not one of the four sensors changes
    nothing at all. *)
Theorem set_emitter_pins :
  forall (e : nat) (s : state),
    (forall k,
       k <> e ->
       emitter_armed (set_emitter_on e s) k = emitter_armed s k
       /\ emitter_armed (set_emitter_off e s) k = emitter_armed s k) /\
    (e < NUM_SENSOR ->
     emitter_armed (set_emitter_on e s) e = true
     /\ emitter_armed (set_emitter_off e s) e = false
     /\ emitter_armed (set_emitter_off e (set_emitter_on e s)) e = false) /\
    (NUM_SENSOR <= e -> set_emitter_on e s = s /\ set_emitter_off e s = s) /\
    (forall n,
       (0 <= n)%Z -> n <> 8%Z -> n <> 9%Z ->
       Z.testbit (GPIOA (set_emitter_on e s)) n = Z.testbit (GPIOA s) n
       /\ Z.testbit (GPIOB (set_emitter_on e s)) n = Z.testbit (GPIOB s) n
       /\ Z.testbit (GPIOA (set_emitter_off e s)) n = Z.testbit (GPIOA s) n
       /\ Z.testbit (GPIOB (set_emitter_off e s)) n = Z.testbit (GPIOB s) n).
Proof.
  intros e s; unfold NUM_SENSOR.
  split; [ | split; [ | split]].
  - intros k Hk.
    destruct e as [ | [ | [ | [ | e]]]], k as [ | [ | [ | [ | k]]]];
      try lia; cbn -[Z.testbit gpio_set gpio_clear]; gpio_pins;
      split; reflexivity.
  - intros He.
    destruct e as [ | [ | [ | [ | e]]]]; try lia;
      cbn -[Z.testbit gpio_set gpio_clear]; gpio_pins;
      repeat split.
  - intros He.
    destruct e as [ | [ | [ | [ | e]]]]; try lia; split; reflexivity.
  - intros n Hn H8 H9; apply set_emitter_other_bits; assumption.
Qed.

End EmitterPins.

(** ** What the sensing cycle leaves alone *)

Section CycleFrame.
Import Detection.

Lemma set_emitter_frame :
  forall e s,
    distance (set_emitter_on e s) = distance s
    /\ calibration_factor (set_emitter_on e s) = calibration_factor s
    /\ distance (set_emitter_off e s) = distance s
    /\ calibration_factor (set_emitter_off e s) = calibration_factor s.
Proof.
  intros [ | [ | [ | [ | e]]]] s; repeat split.
Qed.

Lemma sm_emitter_adc_frame :
  forall adc1 s,
    distance (sm_emitter_adc adc1 s) = distance s
    /\ calibration_factor (sm_emitter_adc adc1 s) = calibration_factor s
    /\ (forall n,
          0 <= n -> n <> 8 -> n <> 9 ->
          Z.testbit (GPIOA (sm_emitter_adc adc1 s)) n = Z.testbit (GPIOA s) n
          /\ Z.testbit (GPIOB (sm_emitter_adc adc1 s)) n
             = Z.testbit (GPIOB s) n).
Proof.
  intros adc1 s; unfold sm_emitter_adc; cbv zeta.
  destruct (emitter_status s) as [ | [ | [ | [ | [ | st]]]]];
    try (repeat split; fail).
  - (* phase 1 *)
    match goal with
    | |- context [set_emitter_on _ ?t] => set (s1 := t) in *
    end.
    destruct (set_emitter_frame (sensor_index s1) s1) as (Hd & Hcf & _).
    pose proof (set_emitter_other_bits (sensor_index s1) s1) as Hpins.
    cbn [distance calibration_factor set_emitter_status GPIOA GPIOB].
    rewrite Hd, Hcf; repeat split; try reflexivity;
      apply Hpins; assumption.
  - (* phase 3 *)
    match goal with
    | |- context [set_emitter_off _ ?t] => set (s1 := t) in *
    end.
    destruct (set_emitter_frame (sensor_index s1) s1)
      as (_ & _ & Hd & Hcf).
    pose proof (set_emitter_other_bits (sensor_index s1) s1) as Hpins.
    cbn [distance calibration_factor set_emitter_status GPIOA GPIOB].
    rewrite Hd, Hcf; repeat split; try reflexivity;
      apply Hpins; assumption.
  - (* phase 4 *)
    destruct (Nat.eqb _ _); repeat split.
Qed.

(** X2.  The sensing cycle never writes the distances or the drift offsets,
    and of the two ports it only ever changes the emitter pins 8 and 9,
    whatever state it is started in and whatever the converter returns. *)
Theorem sensor_cycle_frame :
  forall (adc : nat -> Z) (n : nat) (s : state),
    distance (sensor_cycle adc n s) = distance s
    /\ calibration_factor (sensor_cycle adc n s) = calibration_factor s
    /\ (forall b,
          0 <= b -> b <> 8 -> b <> 9 ->
          Z.testbit (GPIOA (sensor_cycle adc n s)) b = Z.testbit (GPIOA s) b
          /\ Z.testbit (GPIOB (sensor_cycle adc n s)) b
             = Z.testbit (GPIOB s) b).
Proof.
  intros adc n s; induction n as [ | n (IHd & IHcf & IHb)].
  - repeat split.
  - cbn [sensor_cycle tim1_up_isr].
    destruct (sm_emitter_adc_frame (adc n) (sensor_cycle adc n s))
      as (Hd & Hcf & Hb).
    rewrite Hd, Hcf; split; [exact IHd | split; [exact IHcf | ]].
    intros b H0 H8 H9.
    destruct (Hb b H0 H8 H9) as (-> & ->); apply IHb; assumption.
Qed.

End CycleFrame.

(** ** The snapshot of the raw readings *)

Section Snapshot.
Import Detection Readout.
Local Open Scope nat_scope.

(** X4.  [get_sensors_raw] copies the four stored pairs of readings into the
    caller's arrays and writes no cell beyond the fourth; taken once a round
    of sixteen ticks is complete, the snapshot holds, for every sensor, the
    two conversions of its own four ticks, narrowed to 16 bits. *)
Theorem get_sensors_raw_snapshot :
  forall (off on : array Z) (s : state) (i : nat),
    (i < NUM_SENSOR ->
     fst (get_sensors_raw off on s) i = sensors_off s i
     /\ snd (get_sensors_raw off on s) i = sensors_on s i) /\
    (NUM_SENSOR <= i ->
     fst (get_sensors_raw off on s) i = off i
     /\ snd (get_sensors_raw off on s) i = on i) /\
    (forall adc,
       emitter_status s = 1 -> sensor_index s = 0 -> i < NUM_SENSOR ->
       fst (get_sensors_raw off on (sensor_cycle adc 16 s)) i
       = Ieee.wrap_uint16 (adc (4 * i))
       /\ snd (get_sensors_raw off on (sensor_cycle adc 16 s)) i
          = Ieee.wrap_uint16 (adc (4 * i + 2))).
Proof.
  intros off on s i.
  assert (Hcopy :
    forall s', i < NUM_SENSOR ->
      fst (get_sensors_raw off on s') i = sensors_off s' i
      /\ snd (get_sensors_raw off on s') i = sensors_on s' i).
  { intros s' Hi; unfold NUM_SENSOR in Hi.
    destruct i as [ | [ | [ | [ | i]]]]; try lia; split; reflexivity. }
  split; [apply Hcopy | split].
  - unfold NUM_SENSOR; intros Hi.
    do 4 (destruct i as [ | i]; try lia); split; reflexivity.
  - intros adc Hst Hix Hi.
    destruct (Hcopy (sensor_cycle adc 16 s) Hi) as (-> & ->).
    apply sensor_cycle_round; assumption.
Qed.

End Snapshot.

Lemma get_sensors_raw_snapshot_witness :
  (2 < Detection.NUM_SENSOR)%nat /\
  fst (Readout.get_sensors_raw (fun _ => 7) (fun _ => 9) darker_when_lit)
    2%nat
  = 200.
Proof.
  assert (Hi : (2 < Detection.NUM_SENSOR)%nat)
    by (unfold Detection.NUM_SENSOR; lia).
  split; [exact Hi | ].
  rewrite (proj1 (proj1 (get_sensors_raw_snapshot (fun _ => 7) (fun _ => 9)
                           darker_when_lit 2%nat) Hi)).
  reflexivity.
Defined.

(** ** The order of the numbers *)

Section Order.
Import Ieee.

(** [<] is transitive. *)
Lemma lt_trans :
  forall x y z, lt x y = true -> lt y z = true -> lt x z = true.
Proof.
  intros x y z; unfold lt, SFltb.
  destruct x as [sx | sx | | sx mx ex], y as [sy | sy | | sy my ey],
    z as [sz | sz | | sz mz ez]; cbn;
    try destruct sx; try destruct sy; try destruct sz;
    try discriminate; try reflexivity;
    repeat match goal with
           | |- context [Pos.compare_cont Eq ?a ?b] =>
               change (Pos.compare_cont Eq a b) with (Pos.compare a b)
           end;
    destruct (Z.compare_spec ex ey), (Z.compare_spec ey ez),
      (Z.compare_spec ex ez); try discriminate; try reflexivity; try lia;
    destruct (Pos.compare_spec mx my), (Pos.compare_spec my mz),
      (Pos.compare_spec mx mz); cbn; try discriminate; try reflexivity;
    try lia.
Qed.
End Order.

(** ** The estimator and the detector, continued *)

Section DetectorMore.
Import Ieee Detection.
Local Open Scope nat_scope.

Variable cfg : setup.
Context {libm : Libm}.

(** X5.  [update_distance_readings] recomputes the distances from the raw
    readings and the drift offsets alone: running it a second time without
    new readings gives the same distances (the drift offset is not taken
    off twice), and cells of the array beyond the fourth are never
    written. *)
Theorem update_distance_readings_idempotent :
  forall (s : state) (i : nat),
    distance (update_distance_readings cfg (update_distance_readings cfg s)) i
    = distance (update_distance_readings cfg s) i
    /\ (NUM_SENSOR <= i ->
        distance (update_distance_readings cfg s) i = distance s i).
Proof.
  intros s i; unfold NUM_SENSOR.
  do 4 (destruct i as [ | i]; [split; [reflexivity | lia] | ]).
  split; reflexivity.
Qed.

(** X6.  The front sensors error is a zero when the two front distances are
    equal and finite, and NaN when either of them is NaN; the front wall
    distance is NaN when either of them is NaN. *)
Theorem front_sensors_error_aligned :
  forall s : state,
    (eq (distance s SENSOR_FRONT_LEFT_ID) (distance s SENSOR_FRONT_RIGHT_ID)
     = true ->
     is_finite (distance s SENSOR_FRONT_RIGHT_ID) = true ->
     exists z, get_front_sensors_error s = S754_zero z) /\
    (is_nan (distance s SENSOR_FRONT_LEFT_ID) = true
     \/ is_nan (distance s SENSOR_FRONT_RIGHT_ID) = true ->
     get_front_sensors_error s = S754_nan
     /\ get_front_wall_distance s = S754_nan).
Proof.
  intros s; unfold get_front_sensors_error, get_front_wall_distance; split.
  - intros Heq Hfin; apply sub_eq_zero; assumption.
  - intros [H | H]; rewrite (is_nan_eq _ H).
    + split; reflexivity.
    + destruct (distance s SENSOR_FRONT_LEFT_ID); split; reflexivity.
Qed.

(** X7.  When MIDDLE_MAZE_DISTANCE lies below the side wall threshold, a
    side sensors error other than 0 comes with a detected side wall, the one
    whose distance is below MIDDLE_MAZE_DISTANCE; [enable_walls_control]
    then switches the side-sensor-based correction on. *)
Theorem side_sensors_error_needs_wall :
  forall (s : state) (w : Motion.walls_control),
    lt (MIDDLE_MAZE_DISTANCE cfg) (SIDE_WALL_DETECTION cfg) = true ->
    get_side_sensors_error cfg s <> pzero ->
    (right_wall_detection cfg s = true \/ left_wall_detection cfg s = true)
    /\ Motion.side_control (Motion.enable_walls_control cfg s w) = true.
Proof.
  intros s w HM Herr.
  assert (Hwall :
    right_wall_detection cfg s = true \/ left_wall_detection cfg s = true).
  { unfold get_side_sensors_error in Herr.
    unfold right_wall_detection, left_wall_detection.
    destruct (gt (to_double (distance s SENSOR_SIDE_LEFT_ID))
                 (MIDDLE_MAZE_DISTANCE cfg)
              && lt (to_double (distance s SENSOR_SIDE_RIGHT_ID))
                    (MIDDLE_MAZE_DISTANCE cfg)) eqn:H1.
    - apply andb_prop in H1; destruct H1 as (_ & Hr).
      left; rewrite (lt_trans _ _ _ Hr HM); reflexivity.
    - destruct (gt (to_double (distance s SENSOR_SIDE_RIGHT_ID))
                   (MIDDLE_MAZE_DISTANCE cfg)
                && lt (to_double (distance s SENSOR_SIDE_LEFT_ID))
                      (MIDDLE_MAZE_DISTANCE cfg)) eqn:H2.
      + apply andb_prop in H2; destruct H2 as (_ & Hl).
        right; rewrite (lt_trans _ _ _ Hl HM); reflexivity.
      + contradiction Herr; reflexivity. }
  split; [exact Hwall | ].
  unfold Motion.enable_walls_control; cbn [Motion.side_sensors_control
    Motion.side_control].
  destruct Hwall as [-> | ->]; [reflexivity | apply orb_true_r].
Qed.

End DetectorMore.

Lemma front_sensors_error_aligned_witness :
  Ieee.eq
    (Detection.distance (front_wall_at cell_plus_one_cm)
       Detection.SENSOR_FRONT_LEFT_ID)
    (Detection.distance (front_wall_at cell_plus_one_cm)
       Detection.SENSOR_FRONT_RIGHT_ID) = true /\
  Ieee.is_finite
    (Detection.distance (front_wall_at cell_plus_one_cm)
       Detection.SENSOR_FRONT_RIGHT_ID) = true /\
  exists z,
    Detection.get_front_sensors_error (front_wall_at cell_plus_one_cm)
    = S754_zero z.
Proof.
  assert (Heq :
    Ieee.eq
      (Detection.distance (front_wall_at cell_plus_one_cm)
         Detection.SENSOR_FRONT_LEFT_ID)
      (Detection.distance (front_wall_at cell_plus_one_cm)
         Detection.SENSOR_FRONT_RIGHT_ID) = true)
    by (vm_compute; reflexivity).
  assert (Hfin :
    Ieee.is_finite
      (Detection.distance (front_wall_at cell_plus_one_cm)
         Detection.SENSOR_FRONT_RIGHT_ID) = true)
    by (vm_compute; reflexivity).
  split; [exact Heq | split; [exact Hfin | ]].
  exact (proj1 (front_sensors_error_aligned (front_wall_at cell_plus_one_cm))
           Heq Hfin).
Defined.

Lemma side_sensors_error_needs_wall_witness :
  Ieee.lt (MIDDLE_MAZE_DISTANCE classic_setup)
          (Detection.SIDE_WALL_DETECTION classic_setup) = true /\
  Detection.get_side_sensors_error classic_setup between_two_walls
  <> Ieee.pzero /\
  Motion.side_control
    (Motion.enable_walls_control classic_setup between_two_walls
       {| Motion.front_control := false; Motion.side_control := false |})
  = true.
Proof.
  assert (HM :
    Ieee.lt (MIDDLE_MAZE_DISTANCE classic_setup)
            (Detection.SIDE_WALL_DETECTION classic_setup) = true)
    by (vm_compute; reflexivity).
  assert (Herr :
    Detection.get_side_sensors_error classic_setup between_two_walls
    <> Ieee.pzero) by (vm_compute; discriminate).
  split; [exact HM | split; [exact Herr | ]].
  exact (proj2 (side_sensors_error_needs_wall classic_setup between_two_walls
                  {| Motion.front_control := false;
                     Motion.side_control := false |} HM Herr)).
Defined.

(** ** The time to reach a speed *)

Section TimeToSpeed.
Import Ieee Move.

Lemma int_to_float_finite :
  forall z,
    - 2 ^ 24 < z < 2 ^ 24 -> is_finite (int_to_float z) = true.
Proof.
  intros [ | p | p] Hz; [reflexivity | | ];
    unfold int_to_float; cbn [binary_normalize].
  - destruct (int_to_float_small false p) as (m & e & -> & _);
      [lia | reflexivity].
  - destruct (int_to_float_small true p) as (m & e & -> & _);
      [lia | reflexivity].
Qed.

Lemma mul_zero_finite :
  forall z y,
    is_finite y = true -> exists z', f_mul (S754_zero z) y = S754_zero z'.
Proof.
  intros z [s | s | | s m e] Hy; try discriminate Hy; eexists; reflexivity.
Qed.

Lemma div_zero_positive :
  forall z y,
    lt pzero y = true -> exists z', f_div (S754_zero z) y = S754_zero z'.
Proof.
  intros z [s | s | | s m e] Hy; try destruct s; try discriminate Hy;
    eexists; reflexivity.
Qed.

(** X8.  When the speed asked for equals the current target speed and the
    linear acceleration is positive, [required_time_to_speed] is a zero, for
    every finite speed, and [required_ticks_to_speed] is 0 for every tick
    frequency that converts to [float] exactly. *)
Theorem required_time_at_target :
  forall (SYSTICK_FREQUENCY_HZ : Z) (c : control) (speed : spec_float),
    eq speed (target_linear_speed c) = true ->
    is_finite (target_linear_speed c) = true ->
    lt pzero (linear_acceleration c) = true ->
    (exists z, required_time_to_speed c speed = S754_zero z) /\
    (- 2 ^ 24 < SYSTICK_FREQUENCY_HZ < 2 ^ 24 ->
     Motion.required_ticks_to_speed SYSTICK_FREQUENCY_HZ c speed = Some 0).
Proof.
  intros hz c speed Heq Hfin Hpos.
  assert (Htime : exists z, required_time_to_speed c speed = S754_zero z).
  { unfold required_time_to_speed, get_target_linear_speed,
      get_linear_acceleration.
    rewrite (eq_not_gt _ _ Heq).
    destruct (sub_eq_zero prec32 emax32 _ _ Heq Hfin) as (z & Hz).
    unfold f_sub; rewrite Hz.
    apply div_zero_positive; exact Hpos. }
  split; [exact Htime | ].
  intros Hhz; destruct Htime as (z & Hz).
  unfold Motion.required_ticks_to_speed; rewrite Hz.
  destruct (mul_zero_finite z _ (int_to_float_finite hz Hhz)) as (z' & ->).
  reflexivity.
Qed.

End TimeToSpeed.

Lemma required_time_at_target_witness :
  Ieee.eq (float_literal 8 1)
          (Move.target_linear_speed (cruise (float_literal 8 1))) = true /\
  Ieee.is_finite (Move.target_linear_speed (cruise (float_literal 8 1)))
  = true /\
  Ieee.lt Ieee.pzero
    (Move.linear_acceleration (cruise (float_literal 8 1))) = true /\
  - 2 ^ 24 < 1000 < 2 ^ 24 /\
  Motion.required_ticks_to_speed 1000 (cruise (float_literal 8 1))
    (float_literal 8 1) = Some 0.
Proof.
  assert (Heq :
    Ieee.eq (float_literal 8 1)
            (Move.target_linear_speed (cruise (float_literal 8 1))) = true)
    by (vm_compute; reflexivity).
  assert (Hfin :
    Ieee.is_finite (Move.target_linear_speed (cruise (float_literal 8 1)))
    = true) by (vm_compute; reflexivity).
  assert (Hpos :
    Ieee.lt Ieee.pzero
      (Move.linear_acceleration (cruise (float_literal 8 1))) = true)
    by (vm_compute; reflexivity).
  assert (Hhz : - 2 ^ 24 < 1000 < 2 ^ 24) by lia.
  split; [exact Heq | split; [exact Hfin | split; [exact Hpos | ]]].
  split; [exact Hhz | ].
  exact (proj2 (required_time_at_target 1000 (cruise (float_literal 8 1))
                  (float_literal 8 1) Heq Hfin Hpos) Hhz).
Defined.

(** ** The blocking primitives *)

Section Waits.
Import Ieee Motion.

Lemma wait_encoder_reaches :
  forall target pre r0 post,
    Forall (fun r => r < target) pre -> target <= r0 ->
    wait_encoder target (pre ++ r0 :: post) = Some post.
Proof.
  intros target pre r0 post Hpre Hr0; induction Hpre as [ | r pre Hr _ IH].
  - cbn; destruct (Z.ltb_spec r0 target); [lia | reflexivity].
  - cbn; destruct (Z.ltb_spec r target); [exact IH | lia].
Qed.

Lemma wait_encoder_never :
  forall target reads,
    Forall (fun r => r < target) reads -> wait_encoder target reads = None.
Proof.
  intros target reads H; induction H as [ | r reads Hr _ IH].
  - reflexivity.
  - cbn; destruct (Z.ltb_spec r target); [exact IH | lia].
Qed.

Lemma wait_encoder_inv :
  forall target reads post,
    wait_encoder target reads = Some post ->
    exists pre r0,
      reads = pre ++ r0 :: post
      /\ Forall (fun r => r < target) pre /\ target <= r0.
Proof.
  intros target reads; induction reads as [ | r reads IH]; intros post H.
  - discriminate H.
  - cbn in H; destruct (Z.ltb_spec r target) as [Hr | Hr].
    + destruct (IH post H) as (pre & r0 & -> & Hpre & Hr0).
      exists (r :: pre), r0; repeat split; auto.
    + injection H as <-; exists [], r; repeat split; auto.
Qed.

Lemma wait_clock_encoder :
  forall target reads, wait_clock target reads = wait_encoder target reads.
Proof.
  intros target reads; induction reads as [ | r reads IH]; cbn;
    [ | rewrite IH]; reflexivity.
Qed.

Variable cfg : setup.
Variable SYSTICK_FREQUENCY_HZ : Z.

(** X9.  [accelerate] commands no rotation and the maximum linear speed,
    then blocks until the odometry reaches the starting point plus the
    distance in whole micrometers: it returns on the first encoder read that
    is not below that target, having consumed the reads up to it, and it
    never returns while every read stays below the target. *)
Theorem accelerate_blocks_until :
  forall (start : Z) (distance : spec_float) (r : robot) (o : oracle)
         (d : Z),
    to_int32 (f_mul distance (int_to_float MICROMETERS_PER_METER)) = Some d ->
    (forall pre r0 post,
       encoder_reads o = pre ++ r0 :: post ->
       Forall (fun e => e < wrap_int32 (start + d)) pre ->
       wrap_int32 (start + d) <= r0 ->
       accelerate start distance r o
       = Returns
           (set_control
              (set_target_linear_speed (Move.max_linear_speed (cell r))
                 (Move.set_target_angular_speed pzero (control r))) r,
            {| encoder_reads := post; clock_reads := clock_reads o |})) /\
    (Forall (fun e => e < wrap_int32 (start + d)) (encoder_reads o) ->
     accelerate start distance r o = Pending) /\
    (forall r' o',
       accelerate start distance r o = Returns (r', o') ->
       exists pre r0,
         encoder_reads o = pre ++ r0 :: encoder_reads o'
         /\ Forall (fun e => e < wrap_int32 (start + d)) pre
         /\ wrap_int32 (start + d) <= r0).
Proof.
  intros start distance r o d Hd; unfold accelerate; rewrite Hd.
  cbn [defined bind]; split; [ | split].
  - intros pre r0 post -> Hpre Hr0.
    rewrite (wait_encoder_reaches _ _ _ _ Hpre Hr0); reflexivity.
  - intros Hall; rewrite (wait_encoder_never _ _ Hall); reflexivity.
  - intros r' o' H.
    destruct (wait_encoder _ (encoder_reads o)) as [rest | ] eqn:Hw;
      cbn [finished bind] in H; [ | discriminate H].
    injection H as _ <-; cbn [encoder_reads].
    apply wait_encoder_inv; exact Hw.
Qed.

Lemma to_uint32_range :
  forall x q, to_uint32 x = Some q -> 0 <= q < 2 ^ 32.
Proof.
  intros x q; unfold to_uint32.
  destruct (trunc x) as [t | ]; [ | discriminate].
  destruct (Z.leb_spec 0 t), (Z.ltb_spec t (2 ^ 32)); cbn;
    intros Hq; try discriminate Hq.
  injection Hq as <-; lia.
Qed.

Lemma decelerate_run :
  forall (start : Z) (distance speed : spec_float) (r : robot) (o : oracle)
         (d m t : Z) pre r0 post now cpre c0 cpost,
    to_int32 (f_mul distance (int_to_float MICROMETERS_PER_METER)) = Some d ->
    Move.required_micrometers_to_speed (control r) speed = Some m ->
    required_ticks_to_speed SYSTICK_FREQUENCY_HZ
      (set_target_linear_speed (Move.max_linear_speed (cell r))
         (Move.set_target_angular_speed pzero (control r))) speed = Some t ->
    encoder_reads o = pre ++ r0 :: post ->
    Forall
      (fun e => e < wrap_int32 (wrap_int32 (start + d) - wrap_int32 m))
      pre ->
    wrap_int32 (wrap_int32 (start + d) - wrap_int32 m) <= r0 ->
    clock_reads o = now :: cpre ++ c0 :: cpost ->
    Forall (fun k => k < wrap_uint32 (t + now)) cpre ->
    wrap_uint32 (t + now) <= c0 ->
    decelerate SYSTICK_FREQUENCY_HZ start distance speed r o
    = Returns
        (decelerated speed r,
         {| encoder_reads := post; clock_reads := cpost |}).
Proof.
  intros start distance speed r o d m t pre r0 post now cpre c0 cpost
    Hd Hm Ht He Hpre Hr0 Hc Hcpre Hc0.
  unfold decelerate; rewrite Hd, Hm.
  cbn [defined bind to_float pzero]; fold pzero; rewrite Ht.
  cbn [defined bind].
  rewrite He, Hc, (wait_encoder_reaches _ _ _ _ Hpre Hr0).
  cbn [finished bind].
  rewrite wait_clock_encoder, (wait_encoder_reaches _ _ _ _ Hcpre Hc0).
  reflexivity.
Qed.


(** X11.  The settle wait of [decelerate] compares the clock with a sum that
    wraps at 32 bits: when the clock value read at the cut-over plus the
    ticks needed passes 2^32, the very next clock read ends the wait,
    however many ticks were needed. *)
Theorem decelerate_settle_wraps :
  forall (start : Z) (distance speed : spec_float) (r : robot) (o : oracle)
         (d m t : Z),
    to_int32 (f_mul distance (int_to_float MICROMETERS_PER_METER)) = Some d ->
    Move.required_micrometers_to_speed (control r) speed = Some m ->
    required_ticks_to_speed SYSTICK_FREQUENCY_HZ
      (set_target_linear_speed (Move.max_linear_speed (cell r))
         (Move.set_target_angular_speed pzero (control r))) speed = Some t ->
    forall pre r0 post now next cpost,
      encoder_reads o = pre ++ r0 :: post ->
      Forall
        (fun e => e < wrap_int32 (wrap_int32 (start + d) - wrap_int32 m))
        pre ->
      wrap_int32 (wrap_int32 (start + d) - wrap_int32 m) <= r0 ->
      clock_reads o = now :: next :: cpost ->
      0 <= now < 2 ^ 32 ->
      now <= next ->
      2 ^ 32 <= t + now ->
      decelerate SYSTICK_FREQUENCY_HZ start distance speed r o
      = Returns
          (decelerated speed r,
           {| encoder_reads := post; clock_reads := cpost |}).
Proof.
  intros start distance speed r o d m t Hd Hm Ht
    pre r0 post now next cpost He Hpre Hr0 Hc Hnow Hnext Hwrap.
  pose proof (to_uint32_range _ _ Ht) as Htr.
  apply (decelerate_run start distance speed r o d m t
           pre r0 post now [] next cpost);
    try assumption; [constructor | ].
  unfold wrap_uint32.
  replace (t + now) with (t + now - 2 ^ 32 + 1 * 2 ^ 32) by lia.
  rewrite Z.mod_add, Z.mod_small by lia; lia.
Qed.

(** Whatever [decelerate] returns, the robot is the one it was given with
    the final speed commanded. *)
Lemma decelerate_frame :
  forall start distance speed r o r' o',
    decelerate SYSTICK_FREQUENCY_HZ start distance speed r o
    = Returns (r', o') ->
    r' = decelerated speed r.
Proof.
  intros start distance speed r o r' o'; unfold decelerate.
  destruct (to_int32 _) as [d | ]; [ | discriminate].
  destruct (Move.required_micrometers_to_speed _ _) as [m | ];
    [ | discriminate].
  cbn [defined bind].
  destruct (required_ticks_to_speed _ _ _) as [t | ]; [ | discriminate].
  cbn [defined bind].
  destruct (wait_encoder _ _) as [rest | ]; [ | discriminate].
  cbn [finished bind].
  destruct (clock_reads o) as [ | now later]; [discriminate | ].
  destruct (wait_clock _ _) as [later' | ]; [ | discriminate].
  cbn [finished bind]; intros H; injection H as <- _; reflexivity.
Qed.

(** X12.  [stop_middle] and [stop_end] return exactly when their
    [decelerate] does, and the robot they leave does not depend on the walls
    seen at the start nor on the reads consumed: no linear and no angular
    speed commanded, both wall-based corrections off; [stop_middle] sets the
    cell shift to half a cell and leaves the cell start alone, [stop_end]
    goes on to mark the next cell from that state. *)
Theorem stop_maneuvers_halt :
  forall (det det' : Detection.state) (r : robot) (o : oracle),
    stop_middle cfg SYSTICK_FREQUENCY_HZ det r o
    = (ro <- decelerate SYSTICK_FREQUENCY_HZ
               (Move.current_cell_start_micrometers (cell r))
               (half_cell cfg) pzero
               (set_walls (enable_walls_control cfg det (walls r)) r) o;;
       Returns
         (set_cell (Move.set_cell_shift (half_cell cfg) (cell r)) (halted r),
          snd ro))
    /\ stop_end cfg SYSTICK_FREQUENCY_HZ det det' r o
       = (ro <- decelerate SYSTICK_FREQUENCY_HZ
                  (Move.current_cell_start_micrometers (cell r))
                  (to_float (CELL_DIMENSION cfg)) pzero
                  (set_walls (enable_walls_control cfg det (walls r)) r) o;;
          entered_next_cell cfg det' (halted r) (snd ro)).
Proof.
  intros det det' r o; unfold stop_middle, stop_end, half_cell.
  cbn [to_float pzero cell set_walls]; fold pzero; split.
  - destruct (decelerate _ _ _ _ _ o) as [[r' o'] | | ] eqn:Hdec;
      [ | reflexivity | reflexivity].
    rewrite (decelerate_frame _ _ _ _ _ _ _ Hdec); reflexivity.
  - destruct (decelerate _ _ _ _ _ o) as [[r' o'] | | ] eqn:Hdec;
      [ | reflexivity | reflexivity].
    rewrite (decelerate_frame _ _ _ _ _ _ _ Hdec); reflexivity.
Qed.

(** X13.  [move_front] switches the wall-based corrections as the walls seen
    at its start say and leaves them so, accelerates until the odometry
    reaches the cell start plus what is left of the cell, and marks the next
    cell at the encoder read that follows; with no front wall seen there and
    an odometry that does not run backwards, the new cell start is not
    before the point the robot was sent to, and the cell shift is 0. *)
Theorem move_front_enters_next_cell :
  forall (det det' : Detection.state) (r : robot) (o : oracle) (d : Z)
         (pre : list Z) (r0 e1 : Z) (post : list Z),
    to_int32
      (f_mul
         (to_float
            (d_sub (CELL_DIMENSION cfg)
                   (to_double (Move.cell_shift (cell r)))))
         (int_to_float MICROMETERS_PER_METER)) = Some d ->
    encoder_reads o = pre ++ r0 :: e1 :: post ->
    Forall
      (fun e =>
         e < wrap_int32 (Move.current_cell_start_micrometers (cell r) + d))
      pre ->
    wrap_int32 (Move.current_cell_start_micrometers (cell r) + d) <= r0 ->
    r0 <= e1 ->
    Detection.front_wall_detection cfg det' = false ->
    move_front cfg det det' r o
    = Returns
        ({| control :=
              set_target_linear_speed (Move.max_linear_speed (cell r))
                (Move.set_target_angular_speed pzero (control r));
            walls := enable_walls_control cfg det (walls r);
            cell :=
              {| Move.max_linear_speed := Move.max_linear_speed (cell r);
                 Move.cell_shift := pzero;
                 Move.current_cell_start_micrometers := e1;
                 Move.led_left := negb (Move.led_left (cell r)) |} |},
         {| encoder_reads := post; clock_reads := clock_reads o |})
    /\ wrap_int32 (Move.current_cell_start_micrometers (cell r) + d) <= e1.
Proof.
  intros det det' r o d pre r0 e1 post Hd He Hpre Hr0 Hmono Hwall.
  split; [ | lia].
  unfold move_front, accelerate; cbn [cell set_walls control walls].
  rewrite Hd; cbn [defined bind]; rewrite He.
  rewrite (wait_encoder_reaches _ _ _ _ Hpre Hr0).
  cbn [finished bind fst snd]; unfold entered_next_cell.
  cbn [encoder_reads clock_reads set_control cell].
  unfold Move.entered_next_cell; rewrite Hwall; reflexivity.
Qed.

End Waits.

Lemma accelerate_blocks_until_witness :
  Ieee.to_int32
    (Ieee.f_mul (half_cell classic_setup)
       (Ieee.int_to_float MICROMETERS_PER_METER)) = Some 90000 /\
  Motion.encoder_reads straight_run = [0; 50000] ++ 90001 :: [90500; 91000]
  /\
  Forall (fun e => e < Ieee.wrap_int32 (0 + 90000)) [0; 50000] /\
  Ieee.wrap_int32 (0 + 90000) <= 90001 /\
  Motion.accelerate 0 (half_cell classic_setup) cruising straight_run
  = Motion.Returns
      (Motion.set_control
         (Motion.set_target_linear_speed
            (Move.max_linear_speed (Motion.cell cruising))
            (Move.set_target_angular_speed Ieee.pzero
               (Motion.control cruising))) cruising,
       {| Motion.encoder_reads := [90500; 91000];
          Motion.clock_reads := Motion.clock_reads straight_run |}).
Proof.
  assert (Hd :
    Ieee.to_int32
      (Ieee.f_mul (half_cell classic_setup)
         (Ieee.int_to_float MICROMETERS_PER_METER)) = Some 90000)
    by (vm_compute; reflexivity).
  assert (He :
    Motion.encoder_reads straight_run
    = [0; 50000] ++ 90001 :: [90500; 91000]) by reflexivity.
  assert (Hpre :
    Forall (fun e => e < Ieee.wrap_int32 (0 + 90000)) [0; 50000])
    by (repeat (constructor; [vm_compute; reflexivity | ]); constructor).
  assert (Hr0 : Ieee.wrap_int32 (0 + 90000) <= 90001)
    by (vm_compute; discriminate).
  split; [exact Hd | split; [exact He | split; [exact Hpre | ]]].
  split; [exact Hr0 | ].
  exact (proj1
           (accelerate_blocks_until 0 (half_cell classic_setup) cruising
              straight_run 90000 Hd)
           [0; 50000] 90001 [90500; 91000] He Hpre Hr0).
Defined.


Lemma decelerate_settle_wraps_witness :
  0 <= 2 ^ 32 - 50 < 2 ^ 32 /\
  2 ^ 32 - 50 <= 2 ^ 32 - 49 /\
  2 ^ 32 <= 200 + (2 ^ 32 - 50) /\
  Motion.decelerate 1000 0 (half_cell classic_setup) Ieee.pzero cruising
    straight_run_late
  = Motion.Returns
      (decelerated Ieee.pzero cruising,
       {| Motion.encoder_reads := [90001; 90500; 91000];
          Motion.clock_reads := [2 ^ 32 - 48] |}).
Proof.
  assert (Hnow : 0 <= 2 ^ 32 - 50 < 2 ^ 32) by lia.
  assert (Hnext : 2 ^ 32 - 50 <= 2 ^ 32 - 49) by lia.
  assert (Hwrap : 2 ^ 32 <= 200 + (2 ^ 32 - 50)) by lia.
  split; [exact Hnow | split; [exact Hnext | split; [exact Hwrap | ]]].
  refine (decelerate_settle_wraps 1000 0 (half_cell classic_setup)
            Ieee.pzero cruising straight_run_late 90000 80000 200 _ _ _
            [0] 50000 [90001; 90500; 91000] (2 ^ 32 - 50) (2 ^ 32 - 49)
            [2 ^ 32 - 48] eq_refl _ _ eq_refl Hnow Hnext Hwrap).
  - vm_compute; reflexivity.
  - vm_compute; reflexivity.
  - vm_compute; reflexivity.
  - repeat (constructor; [vm_compute; reflexivity | ]); constructor.
  - vm_compute; discriminate.
Defined.

Lemma move_front_enters_next_cell_witness :
  Ieee.to_int32
    (Ieee.f_mul
       (Ieee.to_float
          (Ieee.d_sub (CELL_DIMENSION classic_setup)
             (Ieee.to_double (Move.cell_shift (Motion.cell cruising)))))
       (Ieee.int_to_float MICROMETERS_PER_METER)) = Some 90000 /\
  Detection.front_wall_detection classic_setup left_reading_lost = false /\
  Move.current_cell_start_micrometers
    (Motion.cell
       (match
          Motion.move_front classic_setup left_reading_lost
            left_reading_lost cruising straight_run
        with
        | Motion.Returns ro => fst ro
        | _ => cruising
        end)) = 90500.
Proof.
  assert (Hd :
    Ieee.to_int32
      (Ieee.f_mul
         (Ieee.to_float
            (Ieee.d_sub (CELL_DIMENSION classic_setup)
               (Ieee.to_double (Move.cell_shift (Motion.cell cruising)))))
         (Ieee.int_to_float MICROMETERS_PER_METER)) = Some 90000)
    by (vm_compute; reflexivity).
  assert (Hwall :
    Detection.front_wall_detection classic_setup left_reading_lost = false)
    by (vm_compute; reflexivity).
  split; [exact Hd | split; [exact Hwall | ]].
  rewrite (proj1
             (move_front_enters_next_cell classic_setup left_reading_lost
                left_reading_lost cruising straight_run 90000
                [0; 50000] 90001 90500 [91000] Hd eq_refl
                ltac:(repeat (constructor; [vm_compute; reflexivity | ]);
                      constructor)
                ltac:(vm_compute; discriminate)
                ltac:(vm_compute; discriminate) Hwall)).
  reflexivity.
Defined.

(** ** Turning, whatever the clock returns *)

Section TurnsAnyClock.
Import Ieee Move.

Variable cfg : setup.

Lemma turn_poll_inv :
  forall w c now p t, turn_inv w c now t -> turn_inv w c now (turn_poll p t).
Proof.
  intros w c now p [k st ct] (Hs & Hc); cbn [starting_time ctl pc] in Hs, Hc.
  subst st ct; unfold turn_poll; cbn [pc starting_time ctl].
  destruct k.
  - destruct (elapsed now p <=? 88); split; reflexivity.
  - destruct (elapsed now p <=? 176); split; reflexivity.
  - split; reflexivity.
Qed.

Lemma turn_polls_inv :
  forall w c now polls t,
    turn_inv w c now t ->
    turn_inv w c now (fold_left (fun t p => turn_poll p t) polls t).
Proof.
  intros w c now polls; induction polls as [ | p polls IH]; intros t Ht.
  - exact Ht.
  - cbn [fold_left]; apply IH, turn_poll_inv; exact Ht.
Qed.

(** The program point after a read depends on the program point and the
    starting time before it only. *)
Lemma turn_poll_pc :
  forall p t t',
    pc t = pc t' -> starting_time t = starting_time t' ->
    pc (turn_poll p t) = pc (turn_poll p t')
    /\ starting_time (turn_poll p t) = starting_time (turn_poll p t').
Proof.
  intros p [k st ct] [k' st' ct']; cbn [pc starting_time].
  intros <- <-; unfold turn_poll; cbn [pc starting_time ctl].
  destruct k.
  - destruct (elapsed st p <=? 88); split; reflexivity.
  - destruct (elapsed st p <=? 176); split; reflexivity.
  - split; reflexivity.
Qed.

Lemma turn_polls_pc :
  forall polls t t',
    pc t = pc t' -> starting_time t = starting_time t' ->
    pc (fold_left (fun t p => turn_poll p t) polls t)
    = pc (fold_left (fun t p => turn_poll p t) polls t').
Proof.
  intros polls; induction polls as [ | p polls IH]; intros t t' Hpc Hst.
  - exact Hpc.
  - cbn [fold_left].
    destruct (turn_poll_pc p t t' Hpc Hst) as (Hpc' & Hst').
    apply IH; assumption.
Qed.

(** A turn that has returned ignores every further read, and one that has
    left its first wait never enters it again. *)
Lemma turn_polls_returned :
  forall polls t,
    pc t = Returned -> fold_left (fun t p => turn_poll p t) polls t = t.
Proof.
  intros polls; induction polls as [ | p polls IH]; intros t Ht.
  - reflexivity.
  - cbn [fold_left].
    assert (Hp : turn_poll p t = t) by (unfold turn_poll; rewrite Ht;
                                        reflexivity).
    rewrite Hp; apply IH; exact Ht.
Qed.

Lemma turn_polls_not_turning :
  forall polls t,
    pc t <> Turning ->
    pc (fold_left (fun t p => turn_poll p t) polls t) <> Turning.
Proof.
  intros polls; induction polls as [ | p polls IH]; intros t Ht.
  - exact Ht.
  - cbn [fold_left]; apply IH.
    unfold turn_poll; destruct (pc t) eqn:Hk.
    + contradiction Ht; reflexivity.
    + destruct (elapsed (starting_time t) p <=? 176); cbn [pc];
        [rewrite Hk | ]; discriminate.
    + rewrite Hk; discriminate.
Qed.

Lemma turn_enter_any_clock :
  forall (w : spec_float) (c : control) (now : Z) (polls more : list Z),
    let run reads :=
      fold_left (fun t p => turn_poll p t) reads (turn_enter w now c) in
    target_linear_speed (ctl (run polls)) = target_linear_speed c
    /\ linear_acceleration (ctl (run polls)) = linear_acceleration c
    /\ linear_deceleration (ctl (run polls)) = linear_deceleration c
    /\ target_angular_speed (ctl (run polls))
       = (match pc (run polls) with Turning => w | _ => pzero end)
    /\ (pc (run polls) <> Turning -> pc (run (polls ++ more)) <> Turning)
    /\ (pc (run polls) = Returned -> run (polls ++ more) = run polls).
Proof.
  intros w c now polls more run; subst run; cbv beta.
  assert (Hinv : turn_inv w c now (turn_enter w now c))
    by (split; reflexivity).
  destruct (turn_polls_inv _ _ _ polls _ Hinv) as (_ & Hc).
  rewrite Hc; cbn [target_linear_speed linear_acceleration
    linear_deceleration target_angular_speed set_target_angular_speed].
  repeat split.
  - rewrite fold_left_app; apply turn_polls_not_turning.
  - rewrite fold_left_app; apply turn_polls_returned.
Qed.

(** X14.  Whatever values the clock returns, in whatever order, a turn only
    ever writes the angular target speed: the linear target speed and the
    acceleration magnitudes are those found on entry, the angular speed
    commanded is the turning speed inside the first wait and 0 from then on,
    the turn never goes back to its first wait, and once returned it ignores
    every further read. *)
Theorem turn_any_clock :
  forall (to_left : bool) (c : control) (now : Z) (polls more : list Z),
    let turn := if to_left then turn_left cfg else turn_right cfg in
    let speed :=
      if to_left then to_float (d_mul (int_to_double (-8)) (PI cfg))
      else to_float (d_mul (int_to_double 8) (PI cfg)) in
    target_linear_speed (ctl (turn now polls c)) = target_linear_speed c
    /\ linear_acceleration (ctl (turn now polls c)) = linear_acceleration c
    /\ linear_deceleration (ctl (turn now polls c)) = linear_deceleration c
    /\ target_angular_speed (ctl (turn now polls c))
       = (match pc (turn now polls c) with Turning => speed | _ => pzero end)
    /\ (pc (turn now polls c) <> Turning ->
        pc (turn now (polls ++ more) c) <> Turning)
    /\ (pc (turn now polls c) = Returned ->
        turn now (polls ++ more) c = turn now polls c).
Proof.
  intros [ | ] c now polls more; cbv zeta.
  - exact (turn_enter_any_clock (turn_left_speed cfg) c now polls more).
  - exact (turn_enter_any_clock (turn_right_speed cfg) c now polls more).
Qed.

Lemma opp_binary_round_aux :
  forall prec emax s m e l,
    binary_round_aux prec emax (negb s) m e l
    = SFopp (binary_round_aux prec emax s m e l).
Proof.
  intros prec emax s m e l; unfold binary_round_aux.
  destruct (shr_fexp prec emax m e l) as [mrs' e'].
  destruct (shr_fexp prec emax _ e' loc_Exact) as [mrs'' e''].
  destruct (shr_m mrs''); [reflexivity | | reflexivity].
  destruct (e'' <=? emax - prec); reflexivity.
Qed.

Lemma opp_to_float : forall x, to_float (SFopp x) = SFopp (to_float x).
Proof.
  intros [s | s | | s m e]; try reflexivity.
  cbn [to_float SFopp]; unfold binary_round.
  destruct (shl_align _ _ _) as [mz ez]; apply opp_binary_round_aux.
Qed.

Lemma opp_d_mul_finite :
  forall s m e y,
    d_mul (S754_finite (negb s) m e) y = SFopp (d_mul (S754_finite s m e) y).
Proof.
  intros s m e [sy | sy | | sy my ey]; unfold d_mul; cbn [SFmul SFopp];
    [destruct s, sy; reflexivity | destruct s, sy; reflexivity
    | reflexivity | ].
  replace (xorb (negb s) sy) with (negb (xorb s sy))
    by (destruct s, sy; reflexivity).
  apply opp_binary_round_aux.
Qed.

(** X15.  [turn_left] is the mirror image of [turn_right]: on the same clock
    reads the two stand at the same program point, and the angular speed
    [turn_left] commands while turning is the negation of the one
    [turn_right] commands, whatever the value of PI. *)
Theorem turn_left_mirrors_turn_right :
  forall (c : control) (now : Z) (polls : list Z),
    pc (turn_left cfg now polls c) = pc (turn_right cfg now polls c)
    /\ to_float (d_mul (int_to_double (-8)) (PI cfg))
       = SFopp (to_float (d_mul (int_to_double 8) (PI cfg)))
    /\ (pc (turn_right cfg now polls c) = Turning ->
        target_angular_speed (ctl (turn_left cfg now polls c))
        = SFopp (target_angular_speed (ctl (turn_right cfg now polls c)))).
Proof.
  intros c now polls.
  assert (Hpc : pc (turn_left cfg now polls c)
                = pc (turn_right cfg now polls c))
    by (unfold turn_left, turn_right; apply turn_polls_pc; reflexivity).
  assert (Hopp : to_float (d_mul (int_to_double (-8)) (PI cfg))
                 = SFopp (to_float (d_mul (int_to_double 8) (PI cfg)))).
  { rewrite <- opp_to_float.
    change (int_to_double (-8))
      with (S754_finite (negb false) 4503599627370496 (-49)).
    change (int_to_double 8)
      with (S754_finite false 4503599627370496 (-49)).
    rewrite opp_d_mul_finite; reflexivity. }
  split; [exact Hpc | split; [exact Hopp | ]].
  intros Hturn.
  assert (Hl : turn_inv (turn_left_speed cfg) c now
                 (turn_left cfg now polls c))
    by (apply turn_polls_inv; split; reflexivity).
  assert (Hr : turn_inv (turn_right_speed cfg) c now
                 (turn_right cfg now polls c))
    by (apply turn_polls_inv; split; reflexivity).
  destruct Hl as (_ & Hl), Hr as (_ & Hr).
  rewrite Hl, Hr, Hpc, Hturn.
  cbn [target_angular_speed set_target_angular_speed].
  exact Hopp.
Qed.

End TurnsAnyClock.

Lemma turn_any_clock_witness :
  Move.pc (Move.turn_left classic_setup 0 [100; 200] (cruise Ieee.pzero))
  = Move.Returned /\
  Move.turn_left classic_setup 0 ([100; 200] ++ [150; 10])
    (cruise Ieee.pzero)
  = Move.turn_left classic_setup 0 [100; 200] (cruise Ieee.pzero).
Proof.
  assert (Hpc :
    Move.pc (Move.turn_left classic_setup 0 [100; 200] (cruise Ieee.pzero))
    = Move.Returned) by (vm_compute; reflexivity).
  split; [exact Hpc | ].
  exact (proj2 (proj2 (proj2 (proj2 (proj2
           (turn_any_clock classic_setup true (cruise Ieee.pzero) 0
              [100; 200] [150; 10]))))) Hpc).
Defined.

Lemma turn_left_mirrors_turn_right_witness :
  Move.pc (Move.turn_right classic_setup 0 [40; 80] (cruise Ieee.pzero))
  = Move.Turning /\
  Move.target_angular_speed
    (Move.ctl (Move.turn_left classic_setup 0 [40; 80] (cruise Ieee.pzero)))
  = SFopp
      (Move.target_angular_speed
         (Move.ctl
            (Move.turn_right classic_setup 0 [40; 80] (cruise Ieee.pzero)))).
Proof.
  assert (Hpc :
    Move.pc (Move.turn_right classic_setup 0 [40; 80] (cruise Ieee.pzero))
    = Move.Turning) by (vm_compute; reflexivity).
  split; [exact Hpc | ].
  exact (proj2 (proj2
           (turn_left_mirrors_turn_right classic_setup (cruise Ieee.pzero) 0
              [40; 80])) Hpc).
Defined.

(** ** The maneuvers *)

Section Maneuvers.
Import Ieee Motion.

Variable cfg : setup.
Variable SYSTICK_FREQUENCY_HZ : Z.

Lemma wait_encoder_trace :
  forall target reads rest,
    wait_encoder target reads = Some rest -> reaches target reads rest.
Proof.
  intros target reads rest H.
  destruct (wait_encoder_inv _ _ _ H) as (pre & r0 & Hr & Hpre & Hr0).
  exists pre, r0; repeat split; assumption.
Qed.

(** What a call of [accelerate] that returns has done. *)
Lemma accelerate_trace :
  forall start distance r o r' o',
    accelerate start distance r o = Returns (r', o') ->
    accelerated start distance (encoder_reads o) (encoder_reads o')
    /\ clock_reads o' = clock_reads o
    /\ r' = set_control (at_full_speed r) r.
Proof.
  intros start distance r o r' o'; unfold accelerate, accelerated.
  destruct (to_int32 _) as [d | ]; [ | discriminate].
  cbn [defined bind].
  destruct (wait_encoder _ _) as [rest | ] eqn:Hw; [ | discriminate].
  cbn [finished bind]; intros H; injection H as <- <-.
  cbn [encoder_reads clock_reads]; repeat split.
  exists d; split; [reflexivity | apply wait_encoder_trace; exact Hw].
Qed.

(** What a call of [decelerate] that returns has done. *)
Lemma decelerate_trace :
  forall start distance speed r o r' o',
    decelerate SYSTICK_FREQUENCY_HZ start distance speed r o
    = Returns (r', o') ->
    slowed SYSTICK_FREQUENCY_HZ start distance speed r o o'
    /\ r' = decelerated speed r.
Proof.
  intros start distance speed r o r' o' H.
  split; [ | exact (decelerate_frame _ _ _ _ _ _ _ _ H)].
  revert H; unfold decelerate, slowed.
  destruct (to_int32 _) as [d | ]; [ | discriminate].
  destruct (Move.required_micrometers_to_speed _ _) as [m | ];
    [ | discriminate].
  cbn [defined bind].
  destruct (required_ticks_to_speed _ _ _) as [t | ] eqn:Ht;
    [ | discriminate].
  cbn [defined bind].
  destruct (wait_encoder _ _) as [rest | ] eqn:Hw; [ | discriminate].
  cbn [finished bind].
  destruct (clock_reads o) as [ | now later]; [discriminate | ].
  destruct (wait_clock _ _) as [later' | ] eqn:Hc; [ | discriminate].
  cbn [finished bind]; intros H; injection H as _ <-.
  cbn [encoder_reads clock_reads].
  exists d, m, t, now, later; repeat split.
  - apply wait_encoder_trace; exact Hw.
  - apply wait_encoder_trace; rewrite <- wait_clock_encoder; exact Hc.
Qed.

(** The reads a running turn consumes are the shortest run of reads at
    which it has returned. *)
Lemma wait_turn_first :
  forall reads t t' rest,
    Move.pc t <> Move.Returned ->
    wait_turn t reads = Some (t', rest) ->
    exists polls,
      reads = polls ++ rest
      /\ t' = fold_left (fun t p => Move.turn_poll p t) polls t
      /\ Move.pc (fold_left (fun t p => Move.turn_poll p t) polls t)
         = Move.Returned
      /\ Move.pc
           (fold_left (fun t p => Move.turn_poll p t) (removelast polls) t)
         <> Move.Returned.
Proof.
  intros reads; induction reads as [ | p reads IH]; intros t t' rest Ht H.
  - cbn in H; destruct (Move.pc t); try discriminate H.
    contradiction Ht; reflexivity.
  - assert (Hstep : wait_turn (Move.turn_poll p t) reads = Some (t', rest)).
    { cbn [wait_turn] in H; destruct (Move.pc t); try exact H.
      contradiction Ht; reflexivity. }
    destruct (Move.pc (Move.turn_poll p t)) eqn:Hpc.
    + destruct (IH _ _ _ ltac:(rewrite Hpc; discriminate) Hstep)
        as (polls & -> & -> & Hret & Hnot).
      exists (p :: polls); repeat split; try assumption.
      destruct polls as [ | q polls]; [ | exact Hnot].
      cbn [fold_left] in Hret; rewrite Hpc in Hret; discriminate Hret.
    + destruct (IH _ _ _ ltac:(rewrite Hpc; discriminate) Hstep)
        as (polls & -> & -> & Hret & Hnot).
      exists (p :: polls); repeat split; try assumption.
      destruct polls as [ | q polls]; [ | exact Hnot].
      cbn [fold_left] in Hret; rewrite Hpc in Hret; discriminate Hret.
    + destruct reads as [ | q reads]; cbn [wait_turn] in Hstep;
        rewrite Hpc in Hstep; injection Hstep as <- <-;
        exists [p]; repeat split; try assumption; exact Ht.
Qed.

(** What a turn at angular speed [w] that returns has done; the program
    point a run of reads leads to does not depend on the controller. *)
Lemma turn_trace :
  forall w c r o r' o',
    turn w r o = Returns (r', o') ->
    turned
      (fun now polls c =>
         fold_left (fun t p => Move.turn_poll p t) polls
           (Move.turn_enter w now c))
      c (clock_reads o) (clock_reads o')
    /\ encoder_reads o' = encoder_reads o
    /\ r' = set_control (Move.set_target_angular_speed pzero (control r)) r.
Proof.
  intros w c r o r' o'; unfold turn, turned.
  destruct (clock_reads o) as [ | now later]; [discriminate | ].
  destruct (wait_turn _ later) as [[t rest] | ] eqn:Hwt; [ | discriminate].
  cbn [finished bind fst snd]; intros H; injection H as <- <-.
  cbn [encoder_reads clock_reads].
  assert (Hrun : Move.pc (Move.turn_enter w now (control r))
                 <> Move.Returned) by discriminate.
  destruct (wait_turn_first _ _ _ _ Hrun Hwt)
    as (polls & -> & -> & Hret & Hnot).
  assert (Hinv : turn_inv w (control r) now
                   (Move.turn_enter w now (control r)))
    by (split; reflexivity).
  destruct (turn_polls_inv _ _ _ polls _ Hinv) as (_ & Hctl).
  split; [ | split; [reflexivity | rewrite Hctl, Hret; reflexivity]].
  assert (Hpc :
    forall reads,
      Move.pc (fold_left (fun t p => Move.turn_poll p t) reads
                 (Move.turn_enter w now c))
      = Move.pc (fold_left (fun t p => Move.turn_poll p t) reads
                   (Move.turn_enter w now (control r))))
    by (intros reads; apply turn_polls_pc; reflexivity).
  exists now, polls; rewrite !Hpc.
  split; [reflexivity | split; [ | split; [exact Hret | exact Hnot]]].
  destruct polls as [ | p [ | q polls]]; cbn [length]; [ | | lia].
  - discriminate Hret.
  - cbn [fold_left] in Hret; unfold Move.turn_poll in Hret.
    cbn [Move.turn_enter Move.pc Move.starting_time] in Hret.
    destruct (Move.elapsed now p <=? 88); discriminate Hret.
Qed.

(** What a call of [entered_next_cell] that returns has done. *)
Lemma entered_next_cell_trace :
  forall det r o r' o',
    entered_next_cell cfg det r o = Returns (r', o') ->
    (exists e,
       encoder_reads o = e :: encoder_reads o'
       /\ Move.entered_next_cell cfg e det (cell r) = Some (cell r'))
    /\ clock_reads o' = clock_reads o
    /\ control r' = control r
    /\ walls r' = walls r.
Proof.
  intros det r o r' o'; unfold entered_next_cell.
  destruct (encoder_reads o) as [ | e rest]; [discriminate | ].
  destruct (Move.entered_next_cell cfg e det (cell r)) as [m | ] eqn:Hm;
    [ | discriminate].
  cbn [defined bind]; intros H; injection H as <- <-.
  split; [ | repeat split].
  exists e; split; [reflexivity | exact Hm].
Qed.

(** [entered_next_cell] overwrites the cell shift it finds. *)
Lemma entered_next_cell_shift :
  forall e det v m,
    Move.entered_next_cell cfg e det (Move.set_cell_shift v m)
    = Move.entered_next_cell cfg e det m.
Proof.
  intros e det v m; unfold Move.entered_next_cell.
  destruct (Detection.front_wall_detection cfg det); [ | reflexivity].
  destruct (to_int32 _) as [k | ]; reflexivity.
Qed.

Lemma stop_middle_trace :
  forall det r o r' o',
    stop_middle cfg SYSTICK_FREQUENCY_HZ det r o = Returns (r', o') ->
    slowed SYSTICK_FREQUENCY_HZ
      (Move.current_cell_start_micrometers (cell r)) (half_cell cfg) pzero
      r o o'
    /\ r' = set_cell (Move.set_cell_shift (half_cell cfg) (cell r))
              (halted r).
Proof.
  intros det r o r' o'; unfold stop_middle.
  destruct (decelerate _ _ _ _ _ o) as [[r1 o1] | | ] eqn:Hdec;
    try discriminate.
  cbn [bind]; destruct (decelerate_trace _ _ _ _ _ _ _ Hdec) as (Hs & ->).
  intros H; injection H as <- <-; split; [exact Hs | reflexivity].
Qed.

(** Out of a standstill or a turn and into the next cell: [accelerate] from
    the odometry read on entry, then [entered_next_cell], as [move_out],
    [move_left] and [move_right] do it. *)
Lemma leave_trace :
  forall det det' distance r o r' o',
    match encoder_reads o with
    | [] => Pending
    | encoder :: rest =>
        ro <- accelerate encoder distance
                (set_walls (enable_walls_control cfg det (walls r)) r)
                {| encoder_reads := rest; clock_reads := clock_reads o |};;
        entered_next_cell cfg det' (fst ro) (snd ro)
    end = Returns (r', o') ->
    (exists s0 enc e,
       encoder_reads o = s0 :: enc
       /\ accelerated s0 distance enc (e :: encoder_reads o')
       /\ Move.entered_next_cell cfg e det' (cell r) = Some (cell r'))
    /\ clock_reads o' = clock_reads o
    /\ control r' = at_full_speed r
    /\ walls r' = enable_walls_control cfg det (walls r).
Proof.
  intros det det' distance r o r' o'.
  destruct (encoder_reads o) as [ | s0 enc]; [discriminate | ].
  destruct (accelerate _ _ _ _) as [[r1 o1] | | ] eqn:Hacc;
    try discriminate.
  cbn [bind fst snd]; intros H.
  destruct (accelerate_trace _ _ _ _ _ _ Hacc) as (Ha & Hc & ->).
  destruct (entered_next_cell_trace _ _ _ _ _ H)
    as ((e & He & Hm) & Hc' & Hctl & Hw).
  cbn [encoder_reads clock_reads] in Ha, Hc.
  rewrite He in Ha; rewrite Hc', Hc, Hctl, Hw.
  repeat split.
  exists s0, enc, e; repeat split; assumption.
Qed.

Lemma move_side_trace :
  forall w det1 det2 det3 r o r' o',
    (ro <- decelerate SYSTICK_FREQUENCY_HZ
             (Move.current_cell_start_micrometers (cell r))
             (to_float (literal 2 2)) (to_float (literal 666 3))
             (set_walls (enable_walls_control cfg det1 (walls r)) r) o;;
     ro' <- turn w
              (set_walls (disable_walls_control (walls (fst ro))) (fst ro))
              (snd ro);;
     match encoder_reads (snd ro') with
     | [] => Pending
     | encoder :: rest =>
         ro'' <- accelerate encoder (to_float (literal 2 2))
                   (set_walls
                      (enable_walls_control cfg det2 (walls (fst ro')))
                      (fst ro'))
                   {| encoder_reads := rest;
                      clock_reads := clock_reads (snd ro') |};;
         entered_next_cell cfg det3 (fst ro'') (snd ro'')
     end) = Returns (r', o') ->
    (exists mid s0 enc e,
       slowed SYSTICK_FREQUENCY_HZ
         (Move.current_cell_start_micrometers (cell r))
         (to_float (literal 2 2)) (to_float (literal 666 3)) r o mid
       /\ turned
            (fun now polls c =>
               fold_left (fun t p => Move.turn_poll p t) polls
                 (Move.turn_enter w now c))
            (control r) (clock_reads mid) (clock_reads o')
       /\ encoder_reads mid = s0 :: enc
       /\ accelerated s0 (to_float (literal 2 2)) enc
            (e :: encoder_reads o')
       /\ Move.entered_next_cell cfg e det3 (cell r) = Some (cell r'))
    /\ control r' = at_full_speed r
    /\ walls r' = enable_walls_control cfg det2 (walls r).
Proof.
  intros w det1 det2 det3 r o r' o'.
  destruct (decelerate _ _ _ _ _ o) as [[r1 o1] | | ] eqn:Hdec;
    try discriminate.
  destruct (decelerate_trace _ _ _ _ _ _ _ Hdec) as (Hs & ->).
  cbn [bind fst snd].
  destruct (turn w _ o1) as [[r2 o2] | | ] eqn:Hturn; try discriminate.
  destruct (turn_trace w (control r) _ _ _ _ Hturn) as (Ht & He2 & ->).
  cbn [bind fst snd]; intros H.
  destruct (leave_trace _ _ _ _ _ _ _ H)
    as ((s0 & enc & e & He & Ha & Hm) & Hc & Hctl & Hw).
  split; [ | split; [exact Hctl | exact Hw]].
  exists o1, s0, enc, e; rewrite Hc.
  split; [exact Hs | split; [exact Ht | ]].
  split; [rewrite <- He2; exact He | split; [exact Ha | exact Hm]].
Qed.

(** X16.  A call of [move] that returns has done one step and no more.
    For FRONT it has run one [accelerate] from the cell start over what is
    left of the cell and then marked the new cell once, at the encoder read
    that follows the one ending the wait, and has read no clock.  For LEFT
    and RIGHT it has run one [decelerate] over 0.02 m to 0.666 m/s, one
    turn, one [accelerate] over 0.02 m from the odometry read after the
    turn, and marked the new cell once at the read that follows.  For BACK
    it has run the [decelerate] of [stop_middle], two right turns, and one
    [accelerate] over the second half of the cell from the odometry read
    after them, and marked the new cell once.  In these four cases the
    controller is left with the maximum linear speed and no rotation
    commanded and the wall-based corrections are those of the walls seen at
    the last [enable_walls_control].  For any other value it has run the
    [decelerate] of [stop_middle] and left the robot halted half a cell in,
    no cell marked. *)
Theorem move_does_one_step :
  forall (direction : step_direction) (det1 det2 det3 : Detection.state)
         (r r' : robot) (o o' : oracle),
    move cfg SYSTICK_FREQUENCY_HZ direction det1 det2 det3 r o
    = Returns (r', o') ->
    match direction with
    | FRONT =>
        (exists e,
           accelerated (Move.current_cell_start_micrometers (cell r))
             (to_float
                (d_sub (CELL_DIMENSION cfg)
                       (to_double (Move.cell_shift (cell r)))))
             (encoder_reads o) (e :: encoder_reads o')
           /\ Move.entered_next_cell cfg e det2 (cell r) = Some (cell r'))
        /\ clock_reads o' = clock_reads o
        /\ control r' = at_full_speed r
        /\ walls r' = enable_walls_control cfg det1 (walls r)
    | LEFT | RIGHT =>
        (exists mid s0 enc e,
           slowed SYSTICK_FREQUENCY_HZ
             (Move.current_cell_start_micrometers (cell r))
             (to_float (literal 2 2)) (to_float (literal 666 3)) r o mid
           /\ turned
                (match direction with
                 | LEFT => Move.turn_left cfg
                 | _ => Move.turn_right cfg
                 end)
                (control r) (clock_reads mid) (clock_reads o')
           /\ encoder_reads mid = s0 :: enc
           /\ accelerated s0 (to_float (literal 2 2)) enc
                (e :: encoder_reads o')
           /\ Move.entered_next_cell cfg e det3 (cell r) = Some (cell r'))
        /\ control r' = at_full_speed r
        /\ walls r' = enable_walls_control cfg det2 (walls r)
    | BACK =>
        (exists mid clock s0 enc e,
           slowed SYSTICK_FREQUENCY_HZ
             (Move.current_cell_start_micrometers (cell r))
             (half_cell cfg) pzero r o mid
           /\ turned (Move.turn_right cfg) (control r) (clock_reads mid)
                clock
           /\ turned (Move.turn_right cfg) (control r) clock
                (clock_reads o')
           /\ encoder_reads mid = s0 :: enc
           /\ accelerated s0
                (to_float
                   (d_sub (CELL_DIMENSION cfg)
                          (to_double (half_cell cfg))))
                enc (e :: encoder_reads o')
           /\ Move.entered_next_cell cfg e det3 (cell r) = Some (cell r'))
        /\ control r' = at_full_speed r
        /\ walls r' = enable_walls_control cfg det2 (walls r)
    | STOP =>
        slowed SYSTICK_FREQUENCY_HZ
          (Move.current_cell_start_micrometers (cell r)) (half_cell cfg)
          pzero r o o'
        /\ r' = set_cell (Move.set_cell_shift (half_cell cfg) (cell r))
                  (halted r)
    end.
Proof.
  intros direction det1 det2 det3 r r' o o' H.
  destruct direction; cbn [move] in H.
  - unfold move_left, turn_left in H; cbv zeta in H;
      cbn [cell set_walls] in H.
    apply move_side_trace in H; exact H.
  - unfold move_right, turn_right in H; cbv zeta in H;
      cbn [cell set_walls] in H.
    apply move_side_trace in H; exact H.
  - unfold move_front in H; cbv zeta in H.
    destruct (accelerate _ _ _ _) as [[r1 o1] | | ] eqn:Hacc;
      try discriminate.
    cbn [bind fst snd] in H.
    destruct (accelerate_trace _ _ _ _ _ _ Hacc) as (Ha & Hc & ->).
    destruct (entered_next_cell_trace _ _ _ _ _ H)
      as ((e & He & Hm) & Hc' & Hctl & Hw).
    cbn [cell set_walls encoder_reads clock_reads] in Ha, Hc.
    rewrite He in Ha; rewrite Hc', Hc, Hctl, Hw.
    repeat split; exists e; split; assumption.
  - unfold move_back, turn_right in H.
    destruct (stop_middle _ _ _ _ o) as [[r1 o1] | | ] eqn:Hstop;
      try discriminate.
    destruct (stop_middle_trace _ _ _ _ _ Hstop) as (Hs & ->).
    cbn [bind fst snd] in H.
    destruct (turn _ _ o1) as [[r2 o2] | | ] eqn:Hturn; try discriminate.
    destruct (turn_trace _ (control r) _ _ _ _ Hturn) as (Ht & He2 & ->).
    cbn [bind fst snd] in H.
    destruct (turn _ _ o2) as [[r3 o3] | | ] eqn:Hturn'; try discriminate.
    destruct (turn_trace _ (control r) _ _ _ _ Hturn') as (Ht' & He3 & ->).
    cbn [bind fst snd] in H.
    unfold move_out in H; cbv zeta in H.
    cbn [cell set_walls set_control set_cell halted Move.cell_shift
      Move.set_cell_shift] in H.
    destruct (leave_trace _ _ _ _ _ _ _ H)
      as ((s0 & enc & e & He & Ha & Hm) & Hc & Hctl & Hw).
    split; [ | split; [exact Hctl | exact Hw]].
    exists o1, (clock_reads o2), s0, enc, e; rewrite Hc.
    split; [exact Hs | split; [exact Ht | split; [exact Ht' | ]]].
    split; [rewrite <- He2, <- He3; exact He | ].
    split; [exact Ha | ].
    rewrite <- Hm; symmetry; apply entered_next_cell_shift.
  - apply stop_middle_trace in H; exact H.
Qed.

(** X17.  [move_out] measures from the odometry it reads on entry: the
    recorded cell start has no influence on what it does. *)
Theorem move_out_ignores_cell_start :
  forall (det det' : Detection.state) (r : robot) (o : oracle) (x : Z),
    move_out cfg det det'
      (set_cell (Move.set_current_cell_start_micrometers x (cell r)) r) o
    = move_out cfg det det' r o.
Proof.
  intros det det' r o x; unfold move_out; cbv zeta.
  destruct (encoder_reads o) as [ | encoder rest]; [reflexivity | ].
  unfold accelerate; cbn [cell set_cell set_walls walls control
    Move.cell_shift Move.set_current_cell_start_micrometers
    Move.max_linear_speed].
  destruct (to_int32 _) as [d | ]; [ | reflexivity].
  cbn [defined bind encoder_reads clock_reads].
  destruct (wait_encoder _ rest) as [rest' | ]; [ | reflexivity].
  cbn [finished bind fst snd]; unfold entered_next_cell.
  cbn [encoder_reads clock_reads].
  destruct rest' as [ | e1 rest']; [reflexivity | ].
  unfold Move.entered_next_cell.
  destruct (Detection.front_wall_detection cfg det').
  - destruct (to_int32 _) as [k | ]; reflexivity.
  - reflexivity.
Qed.

(** X18.  A turn reads the clock and nothing else: when [turn_left] or
    [turn_right] returns, the encoder reads are all still there, the clock
    reads consumed are the first one and then the shortest run of reads at
    which the turn has returned, at least two of them, and the robot is the
    one found on entry with no rotation commanded. *)
Theorem turn_reads_clock_only :
  forall (to_left : bool) (r r' : robot) (o o' : oracle),
    (if to_left then turn_left cfg r o else turn_right cfg r o)
    = Returns (r', o') ->
    r' = set_control (Move.set_target_angular_speed pzero (control r)) r
    /\ encoder_reads o' = encoder_reads o
    /\ exists now polls,
         clock_reads o = now :: polls ++ clock_reads o'
         /\ (2 <= length polls)%nat
         /\ Move.pc
              ((if to_left then Move.turn_left cfg else Move.turn_right cfg)
                 now polls (control r)) = Move.Returned
         /\ Move.pc
              ((if to_left then Move.turn_left cfg else Move.turn_right cfg)
                 now (removelast polls) (control r)) <> Move.Returned.
Proof.
  intros [ | ] r r' o o' H; unfold turn_left, turn_right in H;
    destruct (turn_trace _ (control r) _ _ _ _ H) as (Ht & He & Hr);
    (split; [exact Hr | split; [exact He | exact Ht]]).
Qed.

End Maneuvers.

Lemma move_does_one_step_witness :
  Motion.move classic_setup 1000 Motion.LEFT left_reading_lost
    left_reading_lost left_reading_lost cruising left_step_run
  = Motion.Returns
      (left_step_end,
       {| Motion.encoder_reads := [51000]; Motion.clock_reads := [2300] |})
  /\
  Motion.control left_step_end = at_full_speed cruising.
Proof.
  assert (H :
    Motion.move classic_setup 1000 Motion.LEFT left_reading_lost
      left_reading_lost left_reading_lost cruising left_step_run
    = Motion.Returns
        (left_step_end,
         {| Motion.encoder_reads := [51000];
            Motion.clock_reads := [2300] |}))
    by (vm_compute; reflexivity).
  split; [exact H | ].
  exact (proj1 (proj2
           (move_does_one_step classic_setup 1000 Motion.LEFT
              left_reading_lost left_reading_lost left_reading_lost
              cruising left_step_end left_step_run _ H))).
Defined.

Lemma turn_reads_clock_only_witness :
  Motion.turn_left classic_setup cruising left_step_run
  = Motion.Returns
      (cruising,
       {| Motion.encoder_reads := Motion.encoder_reads left_step_run;
          Motion.clock_reads := [2200; 2300] |})
  /\
  cruising
  = Motion.set_control
      (Move.set_target_angular_speed Ieee.pzero (Motion.control cruising))
      cruising.
Proof.
  assert (H :
    (if true then Motion.turn_left classic_setup cruising left_step_run
     else Motion.turn_right classic_setup cruising left_step_run)
    = Motion.Returns
        (cruising,
         {| Motion.encoder_reads := Motion.encoder_reads left_step_run;
            Motion.clock_reads := [2200; 2300] |}))
    by (vm_compute; reflexivity).
  split; [exact H | ].
  exact (proj1 (turn_reads_clock_only classic_setup true cruising cruising
                  left_step_run _ H)).
Defined.
